(** * Blockly.FieldDate: the date input field (core/field_date.js)

    A shallow embedding of the field's validator, constructor, JSON factory,
    editor overlay life cycle and locale scan, with the properties of the
    natural-language specification stated and settled against it.

    Conventions.
    - JavaScript [null]/[undefined] results of type [?string] are [option string].
    - The mutable globals the file touches ([Blockly.WidgetDiv],
      [Blockly.FieldDate.changeEventKey_], the [goog.events] listener registry,
      [Blockly.Events]' group, [goog.i18n.DateTimeSymbols]) are the fields of one
      [State] record threaded through every operation.
    - Library code that is not part of core/field_date.js is either a member of
      the [GoogDate] interface (the Closure date class) or a definition whose
      comment starts with "Modelled from the spec:". *)

From stdpp Require Import gmap strings list fin_maps.
From Stdlib Require Import Ascii String DecimalString.

Local Open Scope string_scope.
Local Open Scope list_scope.
Local Open Scope nat_scope.
Local Open Scope stdpp_scope.

(** ** JavaScript values that reach the field *)

(** The argument type [{string=}] of the constructor and of the validator: a
    string, or one of the two absent values. *)
Inductive JsArg : Type :=
  | JUndefined
  | JNull
  | JStr (s : string).

(** JavaScript truthiness ([ToBoolean]) on [JsArg]: only a non-empty string is
    truthy. *)
Definition truthy (v : JsArg) : bool :=
  match v with
  | JStr s => negb (String.eqb s "")
  | JUndefined | JNull => false
  end.

(** ** The Closure date class, as an interface

    [goog.date.Date] lives in the Closure library, not in this file.  The field
    uses three of its members: the static parser [fromIsoString] (which answers
    [null] when the text is not a date), the verbose serializer
    [toIsoString(true)], and the nullary constructor that reads the local
    clock.  The clock reading is passed explicitly wherever it is used. *)
Class GoogDate : Type := {
  Date : Type;
  fromIsoString : string → option Date;
  toIsoString : Date → string
}.

(** ** Blockly.FieldDate.prototype.doClassValidation_ (lines 99-109) *)

Section Validator.
Context {G : GoogDate}.

Definition doClassValidation_ (newValue : JsArg) : option string :=
  if negb (truthy newValue) then None
  else
    match newValue with
    | JStr s =>
        (* Check if the new value is parsable or not. *)
        match fromIsoString s with
        | None => None
        | Some date =>
            if negb (String.eqb (toIsoString date) s) then None
            else Some s
        end
    | JUndefined | JNull => None
    end.

(** The validator applied to its own [?string] result. *)
Definition arg_of_result (r : option string) : JsArg :=
  match r with
  | Some s => JStr s
  | None => JNull
  end.
End Validator.

(** ** A calendar instance of the date interface *)

Module IsoCalendar.

Record IsoDate : Type := mkIsoDate {
  year : nat;
  month : nat;   (* 1..12 *)
  day : nat      (* 1..31 *)
}.

Definition isLeapYear (y : nat) : bool :=
  (y mod 4 =? 0)%nat && (negb (y mod 100 =? 0)%nat || (y mod 400 =? 0)%nat).

Definition getNumberOfDaysInMonth (y m : nat) : nat :=
  match m with
  | 1 | 3 | 5 | 7 | 8 | 10 | 12 => 31
  | 4 | 6 | 9 | 11 => 30
  | 2 => if isLeapYear y then 29 else 28
  | _ => 0
  end.

Definition digit (c : ascii) : option nat :=
  let n := nat_of_ascii c in
  if (48 <=? n)%nat && (n <=? 57)%nat then Some (n - 48)%nat else None.

Fixpoint number_of (acc : nat) (cs : list ascii) : option nat :=
  match cs with
  | [] => Some acc
  | c :: cs' =>
      match digit c with
      | Some d => number_of (10 * acc + d) cs'
      | None => None
      end
  end.

Definition hyphen : ascii := "-"%char.

(** The three numeric groups of a calendar date, in extended
    ([YYYY-MM-DD]) or basic ([YYYYMMDD]) ISO 8601 notation. *)
Definition split_calendar (cs : list ascii)
  : option (list ascii * list ascii * list ascii) :=
  match cs with
  | [y1; y2; y3; y4; s1; m1; m2; s2; d1; d2] =>
      if Ascii.eqb s1 hyphen && Ascii.eqb s2 hyphen
      then Some ([y1; y2; y3; y4], [m1; m2], [d1; d2])
      else None
  | [y1; y2; y3; y4; m1; m2; d1; d2] =>
      Some ([y1; y2; y3; y4], [m1; m2], [d1; d2])
  | _ => None
  end.

(** Modelled from the spec: [goog.date.Date.fromIsoString] is not in
    core/field_date.js.  Section 4.1: "parse [input] as a calendar date under
    strict ISO 8601 calendar-date rules (4-digit year, 2-digit month 01-12,
    2-digit day valid for that month/year, leap years respected)". *)
Definition parse (s : string) : option IsoDate :=
  match split_calendar (list_ascii_of_string s) with
  | None => None
  | Some (ys, ms, ds) =>
      match number_of 0 ys, number_of 0 ms, number_of 0 ds with
      | Some y, Some m, Some d =>
          if (1 <=? m)%nat && (m <=? 12)%nat && (1 <=? d)%nat
             && (d <=? getNumberOfDaysInMonth y m)%nat
          then Some (mkIsoDate y m d)
          else None
      | _, _, _ => None
      end
  end.

(** Decimal rendering of [n], left-padded with zeros to [width] characters
    (longer numbers are not truncated). *)
Definition padNumber (n width : nat) : string :=
  let s := NilZero.string_of_uint (Nat.to_uint n) in
  String.concat "" (replicate (width - String.length s) "0") +:+ s.

(** Modelled from the spec: [goog.date.Date.prototype.toIsoString] is not in
    core/field_date.js.  Glossary, canonical date string: "ISO calendar date
    formatted exactly [YYYY-MM-DD], zero-padded, Gregorian". *)
Definition serialize (d : IsoDate) : string :=
  padNumber (year d) 4 +:+ "-" +:+ padNumber (month d) 2 +:+ "-"
    +:+ padNumber (day d) 2.

#[export] Instance calendar : GoogDate := {|
  Date := IsoDate;
  fromIsoString := parse;
  toIsoString := serialize
|}.

(** The validator of a field whose date class is this calendar. *)
Definition validate : JsArg → option string := doClassValidation_ (G := calendar).

End IsoCalendar.

(** ** The field object *)

(** An externally supplied validator: takes a date string, answers a validated
    date string or [null]. *)
Definition Validator : Type := string → option string.

(** The owning block, as far as the field reads it. *)
Record Block : Type := mkBlock { RTL : bool }.

Record Field : Type := mkField {
  value_ : option string;
  validator_ : option Validator;
  sourceBlock_ : option Block
}.

Definition getValue (fld : Field) : option string := value_ fld.

(** Modelled from the spec: the constructor of the base class [Blockly.Field]
    is not in core/field_date.js.  Section 4.2, [construct]: the value handed
    over is the field's value and the validator is stored "for later use on
    user-driven changes"; the external validator is not invoked at
    construction.  A new field has no owning block yet. *)
Definition Field_constructor (value : string) (opt_validator : option Validator)
  : Field :=
  {| value_ := Some value; validator_ := opt_validator; sourceBlock_ := None |}.

(** Modelled from the spec: [Blockly.Field.prototype.dispose] is not in
    core/field_date.js.  Section 4.2, [dispose]: "releases its own state";
    here the back-reference to the owning block. *)
Definition Field_dispose (fld : Field) : Field :=
  {| value_ := value_ fld; validator_ := validator_ fld; sourceBlock_ := None |}.

(** Modelled from the spec: [Blockly.Field.prototype.setSourceBlock] is not
    in core/field_date.js.  Section 3: the field's [owner] is a
    "back-reference to the containing block", set when the host attaches the
    field to its block. *)
Definition Field_setSourceBlock (b : Block) (fld : Field) : Field :=
  {| value_ := value_ fld; validator_ := validator_ fld; sourceBlock_ := Some b |}.

(** Modelled from the spec: the store of an accepted value is part of
    [Blockly.Field.prototype.setValue], which is not in core/field_date.js.
    Section 4.2, [setValue]: "updates [value]". *)
Definition Field_doValueUpdate_ (v : string) (fld : Field) : Field :=
  {| value_ := Some v; validator_ := validator_ fld;
     sourceBlock_ := sourceBlock_ fld |}.

Section Construction.
Context {G : GoogDate}.

(** [Blockly.FieldDate] (lines 52-58).  [now] is the date that
    [new goog.date.Date()] reads from the local clock. *)
Definition FieldDate (opt_value : JsArg) (opt_validator : option Validator)
    (now : Date) : Field :=
  let value :=
    match doClassValidation_ opt_value with
    | Some s => if negb (truthy (JStr s)) then toIsoString now else s
    | None => toIsoString now
    end in
  Field_constructor value opt_validator.

(** [options['date']]: an absent key reads as [undefined]. *)
Definition get_option (options : gmap string JsArg) (key : string) : JsArg :=
  default JUndefined (options !! key).

(** [Blockly.FieldDate.fromJson] (lines 68-70). *)
Definition fromJson (options : gmap string JsArg) (now : Date) : Field :=
  FieldDate (get_option options "date") None now.
End Construction.

(** ** Locale scan: Blockly.FieldDate.loadLanguage_ (lines 175-186) *)

(** Line terminators, which [.] of a JavaScript regular expression does not
    match.  Property names are modelled as strings of 8-bit code units, so of
    the four terminators only LF and CR can occur. *)
Definition is_line_terminator (c : ascii) : bool :=
  Ascii.eqb c "010"%char || Ascii.eqb c "013"%char.

(** [prop.match(/^DateTimeSymbols_(.+)$/)]: the first capture group, or [None]
    when the name does not match. *)
Definition match_reg (prop : string) : option string :=
  let pre := "DateTimeSymbols_" in
  if String.prefix pre prop then
    let m1 := String.substring (String.length pre)
                (String.length prop - String.length pre) prop in
    if negb (String.eqb m1 "")
       && forallb (λ c, negb (is_line_terminator c)) (list_ascii_of_string m1)
    then Some m1 else None
  else None.

Definition lower_ascii (c : ascii) : ascii :=
  let n := nat_of_ascii c in
  if (65 <=? n)%nat && (n <=? 90)%nat then ascii_of_nat (n + 32) else c.

(** [String.prototype.toLowerCase] on identifiers of the basic Latin alphabet. *)
Fixpoint toLowerCase (s : string) : string :=
  match s with
  | EmptyString => EmptyString
  | String c rest => String (lower_ascii c) (toLowerCase rest)
  end.

(** [s.replace(from, to)] with a one-character string pattern: only the first
    occurrence is replaced. *)
Fixpoint replace (from to : ascii) (s : string) : string :=
  match s with
  | EmptyString => EmptyString
  | String c rest =>
      if Ascii.eqb c from then String to rest
      else String c (replace from to rest)
  end.

(** [m[1].toLowerCase().replace('_', '.')], e.g. 'pt.br'. *)
Definition lang_of (m1 : string) : string :=
  replace "_"%char "."%char (toLowerCase m1).

Section LoadLanguage.
Context {Symbols : Type}.

(** [inCatalog lang] is the truthiness of
    [goog.getObjectByName(lang, Blockly.Msg)]; the catalog and the Closure
    lookup are outside this file. *)
Variable inCatalog : string → bool.

(** One turn of the [for (var prop in goog.i18n)] loop; [table] is
    [goog.i18n[prop]] and [cur] the current [goog.i18n.DateTimeSymbols]. *)
Definition loadLanguage_body (cur : Symbols) (entry : string * Symbols)
  : Symbols :=
  match match_reg entry.1 with
  | Some m1 => if inCatalog (lang_of m1) then entry.2 else cur
  | None => cur
  end.

(** [i18n] lists the properties of [goog.i18n] in enumeration order.  The
    loop assigns to the property [DateTimeSymbols] of the object it
    enumerates; that name does not match the expression, so no turn reads
    the assigned value back through [goog.i18n[prop]]. *)
Definition loadLanguage_ (i18n : list (string * Symbols)) (cur : Symbols)
  : Symbols :=
  fold_left loadLanguage_body i18n cur.

(** A property is a matching candidate when its name has the
    [DateTimeSymbols_] form and its normalized code is in the catalog. *)
Definition candidate (entry : string * Symbols) : bool :=
  match match_reg entry.1 with
  | Some m1 => inCatalog (lang_of m1)
  | None => false
  end.
End LoadLanguage.

(** The ambient locale data: table type, the [goog.i18n] namespace and the
    message catalog lookup. *)
Class LocaleEnv : Type := {
  Symbols : Type;
  i18n : list (string * Symbols);
  Msg_has : string → bool
}.

(** ** The editor overlay *)

(** Object identity of a field, and of a listener registration
    ([goog.events.Key], a listener object: always truthy). *)
Definition FieldId : Type := nat.
Definition Key : Type := nat.

(** The dispose callbacks handed to [Blockly.WidgetDiv.show]; this file
    registers one. *)
Inductive Disposer : Type :=
  | FieldDate_widgetDispose_.

(** One [Blockly.Events.BlockChange] notification, together with the overlay
    owner at the moment it was fired (kept to state what an observer of the
    notification sees). *)
Record ChangeEvent : Type := mkChangeEvent {
  ce_field : FieldId;
  ce_oldValue : option string;
  ce_newValue : string;
  ce_overlayOwner : option FieldId
}.

Section Overlay.
Context {G : GoogDate} {L : LocaleEnv}.

(** The [goog.ui.DatePicker] rendered into the widget div. *)
Record Picker : Type := mkPicker {
  allowNone : bool;
  showWeekNum : bool;
  picker_date : option Date
}.

Record State : Type := mkState {
  fields : gmap FieldId Field;        (* the field objects *)
  owner_ : option FieldId;            (* Blockly.WidgetDiv.owner_ *)
  dispose_ : option Disposer;         (* Blockly.WidgetDiv.dispose_ *)
  DIV : list Picker;                  (* children of Blockly.WidgetDiv.DIV *)
  changeEventKey_ : option Key;       (* Blockly.FieldDate.changeEventKey_ *)
  listeners : gmap Key FieldId;       (* goog.events: live CHANGE listeners,
                                         each with the field its closure holds *)
  nextKey : Key;                      (* goog.events: next fresh key *)
  group_ : bool;                      (* Blockly.Events: a group is set *)
  DateTimeSymbols : Symbols;          (* goog.i18n.DateTimeSymbols *)
  fired : list ChangeEvent            (* notifications, oldest first *)
}.

Definition set_fields (v : gmap FieldId Field) (σ : State) : State :=
  mkState v (owner_ σ) (dispose_ σ) (DIV σ) (changeEventKey_ σ) (listeners σ)
    (nextKey σ) (group_ σ) (DateTimeSymbols σ) (fired σ).
Definition set_owner_ (v : option FieldId) (σ : State) : State :=
  mkState (fields σ) v (dispose_ σ) (DIV σ) (changeEventKey_ σ) (listeners σ)
    (nextKey σ) (group_ σ) (DateTimeSymbols σ) (fired σ).
Definition set_dispose_ (v : option Disposer) (σ : State) : State :=
  mkState (fields σ) (owner_ σ) v (DIV σ) (changeEventKey_ σ) (listeners σ)
    (nextKey σ) (group_ σ) (DateTimeSymbols σ) (fired σ).
Definition set_DIV (v : list Picker) (σ : State) : State :=
  mkState (fields σ) (owner_ σ) (dispose_ σ) v (changeEventKey_ σ) (listeners σ)
    (nextKey σ) (group_ σ) (DateTimeSymbols σ) (fired σ).
Definition set_changeEventKey_ (v : option Key) (σ : State) : State :=
  mkState (fields σ) (owner_ σ) (dispose_ σ) (DIV σ) v (listeners σ)
    (nextKey σ) (group_ σ) (DateTimeSymbols σ) (fired σ).
Definition set_registry (v : gmap Key FieldId) (k : Key) (σ : State) : State :=
  mkState (fields σ) (owner_ σ) (dispose_ σ) (DIV σ) (changeEventKey_ σ) v
    k (group_ σ) (DateTimeSymbols σ) (fired σ).
Definition set_group_ (v : bool) (σ : State) : State :=
  mkState (fields σ) (owner_ σ) (dispose_ σ) (DIV σ) (changeEventKey_ σ)
    (listeners σ) (nextKey σ) v (DateTimeSymbols σ) (fired σ).
Definition set_DateTimeSymbols (v : Symbols) (σ : State) : State :=
  mkState (fields σ) (owner_ σ) (dispose_ σ) (DIV σ) (changeEventKey_ σ)
    (listeners σ) (nextKey σ) (group_ σ) v (fired σ).
Definition set_fired (v : list ChangeEvent) (σ : State) : State :=
  mkState (fields σ) (owner_ σ) (dispose_ σ) (DIV σ) (changeEventKey_ σ)
    (listeners σ) (nextKey σ) (group_ σ) (DateTimeSymbols σ) v.

(** *** Host services *)

(** Modelled from the spec: [goog.events.listen] is not in
    core/field_date.js.  Section 4.3: "Registers exactly one change listener
    on the calendar widget; stores the resulting subscription token"; the
    token is fresh. *)
Definition goog_events_listen (thisField : FieldId) (σ : State) : Key * State :=
  (nextKey σ,
   set_registry (<[nextKey σ := thisField]> (listeners σ)) (S (nextKey σ)) σ).

(** Modelled from the spec: [goog.events.unlistenByKey] is not in
    core/field_date.js.  Section 4.3: "unsubscribe the stored token
    (idempotent - safe if already unsubscribed)". *)
Definition goog_events_unlistenByKey (key : Key) (σ : State) : State :=
  set_registry (delete key (listeners σ)) (nextKey σ) σ.

(** Modelled from the spec: [Blockly.Events.setGroup] is not in
    core/field_date.js.  Section 4.3: the "grouped-events" suppression flag
    used by the host's undo system. *)
Definition Blockly_Events_setGroup (state : bool) (σ : State) : State :=
  set_group_ state σ.

(** [Blockly.FieldDate.widgetDispose_] (lines 163-168). *)
Definition widgetDispose_ (σ : State) : State :=
  let σ1 :=
    match changeEventKey_ σ with
    | Some key => goog_events_unlistenByKey key σ
    | None => σ
    end in
  Blockly_Events_setGroup false σ1.

Definition run_disposer (d : Disposer) : State → State :=
  match d with
  | FieldDate_widgetDispose_ => widgetDispose_
  end.

(** Modelled from the spec: [Blockly.WidgetDiv.hide] is not in
    core/field_date.js.  Sections 3 and 4.3: the overlay slot has at most one
    owner; closing runs the dispose callback that the owner registered,
    clears the overlay container and leaves the slot without owner; closing a
    closed slot does nothing.  What happens to the subscription on close is
    the business of the callback, [widgetDispose_] above, which is source
    code. *)
Definition WidgetDiv_hide (σ : State) : State :=
  match owner_ σ with
  | None => σ
  | Some _ =>
      let σ1 := set_owner_ None σ in
      let σ2 :=
        match dispose_ σ1 with
        | Some d => run_disposer d σ1
        | None => σ1
        end in
      set_DIV [] (set_dispose_ None σ2)
  end.

(** Modelled from the spec: [Blockly.WidgetDiv.show] is not in
    core/field_date.js.  Section 4.3, [open]: a prior overlay "is closed
    first"; the opening field "becomes its current owner". *)
Definition WidgetDiv_show (newOwner : FieldId) (rtl : bool) (dispose : Disposer)
    (σ : State) : State :=
  let σ1 := WidgetDiv_hide σ in
  set_dispose_ (Some dispose) (set_owner_ (Some newOwner) σ1).

(** Modelled from the spec: [Blockly.WidgetDiv.hideIfOwner] is not in
    core/field_date.js.  Section 4.3, [close(field)]: "no-op unless [field]
    is the current overlay owner". *)
Definition WidgetDiv_hideIfOwner (oldOwner : FieldId) (σ : State) : State :=
  if decide (owner_ σ = Some oldOwner) then WidgetDiv_hide σ else σ.

(** The validator stored in the field, applied to a string that passed the
    class validation.  Documentation of the constructor (lines 46-48): the
    validator "is called to validate changes to the field's value.  Takes in
    a date string & returns a validated date string ('YYYY-MM-DD' format), or
    null to abort the change."  A field without validator keeps the string. *)
Definition callValidator (fld : Field) (v : string) : option string :=
  match validator_ fld with
  | Some validate => validate v
  | None => Some v
  end.

(** Modelled from the spec: [Blockly.Field.prototype.setValue] is not in
    core/field_date.js.  Section 4.2, [setValue(candidate)]: "runs internal
    validation; if result differs from current [value], updates [value] and
    emits exactly one change notification to the owning block; if result
    equals current [value], no notification.  If validation yields [null],
    the change is aborted (prior value retained)."  The validation is the
    class validation [doClassValidation_] followed by the validator that the
    constructor stored "for later use on user-driven changes"; either of
    them aborts the change by answering [null].  A field object that does not
    exist is left out of the state. *)
Definition setValue (f : FieldId) (newValue : JsArg) (σ : State) : State :=
  match fields σ !! f with
  | None => σ
  | Some fld =>
      match doClassValidation_ newValue ≫= callValidator fld with
      | None => σ
      | Some v =>
          if decide (getValue fld = Some v) then σ
          else
            let ev := mkChangeEvent f (getValue fld) v (owner_ σ) in
            set_fired (fired σ ++ [ev])
              (set_fields (<[f := Field_doValueUpdate_ v fld]> (fields σ)) σ)
      end
  end.

(** Modelled from the spec: [goog.date.DateTime.fromIsoString] is not in
    core/field_date.js.  Section 4.3, [open]: the widget is "seeded with
    [field.getValue()] parsed to a date (or left unseeded if null)"; on a
    date-only text the parser is the one of the date class. *)
Definition DateTime_fromIsoString (value : option string) : option Date :=
  value ≫= fromIsoString.

(** *** Blockly.FieldDate.prototype.createWidget_ (lines 147-157)

    Answers the picker and the state in which it is rendered. *)
Definition createWidget_ (fld : Field) (σ : State) : Picker * State :=
  let σ1 := set_DateTimeSymbols (loadLanguage_ Msg_has i18n (DateTimeSymbols σ)) σ in
  let picker :=
    {| allowNone := false; showWeekNum := false;
       picker_date := DateTime_fromIsoString (getValue fld) |} in
  (picker, set_DIV (DIV σ1 ++ [picker]) σ1).

(** The listener installed by [showEditor_] (lines 135-139); [event_date] is
    [event.date], [None] when the widget reports no date. *)
Definition changeListener (thisField : FieldId) (event_date : option Date)
    (σ : State) : State :=
  let date :=
    match event_date with
    | Some d => toIsoString d
    | None => ""
    end in
  let σ1 := WidgetDiv_hide σ in
  setValue thisField (JStr date) σ1.

(** *** Blockly.FieldDate.prototype.showEditor_ (lines 115-140)

    [None] is the [TypeError] of [this.sourceBlock_.RTL] on a field without
    owning block.  The bounding boxes, the picker size and the positioning
    call only place the widget on screen and leave this state alone. *)
Definition showEditor_ (f : FieldId) (σ : State) : option State :=
  fld ← fields σ !! f;
  block ← sourceBlock_ fld;
  let σ1 := WidgetDiv_show f (RTL block) FieldDate_widgetDispose_ σ in
  let '(picker, σ2) := createWidget_ fld σ1 in
  let '(key, σ3) := goog_events_listen f σ2 in
  Some (set_changeEventKey_ (Some key) σ3).

(** *** Blockly.FieldDate.prototype.dispose (lines 88-91) *)
Definition dispose (f : FieldId) (σ : State) : State :=
  let σ1 := WidgetDiv_hideIfOwner f σ in
  set_fields (alter Field_dispose f (fields σ1)) σ1.

(** The picker fires CHANGE: the listener registered under [key] runs if it
    is still registered. *)
Definition dispatchChange (key : Key) (event_date : option Date) (σ : State)
  : State :=
  match listeners σ !! key with
  | Some thisField => changeListener thisField event_date σ
  | None => σ
  end.

(** *** Reachable states *)

Definition initial (symbols : Symbols) : State :=
  {| fields := ∅; owner_ := None; dispose_ := None; DIV := [];
     changeEventKey_ := None; listeners := ∅; nextKey := 0;
     group_ := false; DateTimeSymbols := symbols; fired := [] |}.

(** What the host and the user can do between two turns of the event loop. *)
Inductive step : State → State → Prop :=
  | step_new σ f opt_value opt_validator now :
      fields σ !! f = None →
      step σ (set_fields (<[f := FieldDate opt_value opt_validator now]> (fields σ)) σ)
  | step_setSourceBlock σ f b :
      step σ (set_fields (alter (Field_setSourceBlock b) f (fields σ)) σ)
  | step_showEditor σ f σ' :
      showEditor_ f σ = Some σ' →
      step σ σ'
  | step_change σ key event_date :
      step σ (dispatchChange key event_date σ)
  | step_hide σ :
      step σ (WidgetDiv_hide σ)
  | step_dispose σ f :
      step σ (dispose f σ)
  | step_setValue σ f newValue :
      step σ (setValue f newValue σ)
  | step_setGroup σ state :
      step σ (Blockly_Events_setGroup state σ).

Inductive reachable : State → Prop :=
  | reachable_initial symbols : reachable (initial symbols)
  | reachable_step σ σ' : reachable σ → step σ σ' → reachable σ'.

(** The overlay of field [f] is open. *)
Definition overlay_open (f : FieldId) (σ : State) : Prop := owner_ σ = Some f.

(** Field [f] has a live subscription: a registered listener whose closure
    holds [f]. *)
Definition live_token (f : FieldId) (σ : State) : Prop :=
  ∃ key, listeners σ !! key = Some f.

(** A token is held: [Blockly.FieldDate.changeEventKey_] is set. *)
Definition token_held (σ : State) : Prop := is_Some (changeEventKey_ σ).

(** The part of the state that belongs to the overlay. *)
Definition overlay_of (σ : State)
  : option FieldId * option Disposer * list Picker * option Key
    * gmap Key FieldId * bool :=
  (owner_ σ, dispose_ σ, DIV σ, changeEventKey_ σ, listeners σ, group_ σ).

(** The invariant of the overlay: while a field owns the slot, the stored
    key is the one registered listener, it belongs to the owner, the dispose
    callback is installed and one picker is rendered; while nobody owns the
    slot, no listener is registered and the container is empty. *)
Definition overlay_inv (σ : State) : Prop :=
  match owner_ σ with
  | Some f =>
      ∃ key, changeEventKey_ σ = Some key
             ∧ listeners σ = {[key := f]}
             ∧ dispose_ σ = Some FieldDate_widgetDispose_
             ∧ List.length (DIV σ) = 1
  | None => listeners σ = ∅ ∧ DIV σ = []
  end.
End Overlay.

(** ** Sample data for the closed instances below *)

Module Sample.
Import IsoCalendar.

(** A [goog.i18n] namespace with three symbol tables among other
    properties, and a catalog that knows English and Brazilian Portuguese. *)
#[export] Instance locale : LocaleEnv := {|
  Symbols := string;
  i18n := [("DateTimeSymbols", "en");
           ("DateTimeSymbols_en", "en");
           ("DateTimeSymbols_pt_BR", "pt_BR");
           ("DateTimeSymbols_fr", "fr");
           ("NumberFormatSymbols_en", "num_en")];
  Msg_has := λ lang, String.eqb lang "en" || String.eqb lang "pt.br"
|}.

Definition today : @Date calendar := mkIsoDate 2026 11 1.

Definition σ_new0 : State :=
  set_fields (<[0 := FieldDate (JStr "2024-03-01") None today]> (fields (initial "en")))
    (initial "en").

(** Two fields: one built from a date, one from no argument. *)
Definition σ_new : State :=
  set_fields (<[1 := FieldDate JUndefined None today]> (fields σ_new0)) σ_new0.

Definition σ_attached0 : State :=
  set_fields (alter (Field_setSourceBlock (mkBlock false)) 0 (fields σ_new)) σ_new.

Definition σ_attached : State :=
  set_fields (alter (Field_setSourceBlock (mkBlock true)) 1 (fields σ_attached0))
    σ_attached0.

(** The editor of field 0 is open. *)
Definition σ_open : State := default σ_attached (showEditor_ 0 σ_attached).

(** ... and closed again. *)
Definition σ_closed : State := WidgetDiv_hide σ_open.

(** The editor of field 1 is opened while that of field 0 is open. *)
Definition σ_other : State := default σ_open (showEditor_ 1 σ_open).

(** The user picks 2 January 2025 in the open editor of field 0. *)
Definition picked : option (@Date calendar) := Some (mkIsoDate 2025 1 2).

(** A validator that aborts every change, and one that moves every date to
    the first day of its month. *)
Definition reject_all : Validator := λ _, None.
Definition first_of_month : Validator :=
  λ v, Some (String.substring 0 8 v +:+ "01").

(** A second run of the host: field 0 is built with [reject_all], field 1
    with [first_of_month]; both are attached to a block. *)
Definition τ_new0 : State :=
  set_fields
    (<[0 := FieldDate (JStr "2024-03-01") (Some reject_all) today]>
       (fields (initial "en")))
    (initial "en").

Definition τ_new : State :=
  set_fields
    (<[1 := FieldDate (JStr "2024-03-15") (Some first_of_month) today]>
       (fields τ_new0))
    τ_new0.

Definition τ_attached0 : State :=
  set_fields (alter (Field_setSourceBlock (mkBlock false)) 0 (fields τ_new)) τ_new.

Definition τ_attached : State :=
  set_fields (alter (Field_setSourceBlock (mkBlock false)) 1 (fields τ_attached0))
    τ_attached0.

(** The editor of the field with [reject_all] is open. *)
Definition τ_open : State := default τ_attached (showEditor_ 0 τ_attached).

(** The editor of the field with [first_of_month] is open. *)
Definition τ_open1 : State := default τ_attached (showEditor_ 1 τ_attached).
End Sample.

(** * Properties *)

(** ** The validator *)

Section ValidatorFacts.
Context {G : GoogDate}.

Lemma truthy_JStr s : truthy (JStr s) = true ↔ s ≠ "".
Proof.
  unfold truthy. destruct (String.eqb_spec s ""); simpl; split; congruence.
Qed.

Lemma doClassValidation_falsy v : truthy v = false → doClassValidation_ v = None.
Proof. intros Hv. unfold doClassValidation_. by rewrite Hv. Qed.

(** Inversion of an accepting run: the input was a non-empty string that
    parses, and the parsed date prints back as the input. *)
Lemma doClassValidation_Some v r :
  doClassValidation_ v = Some r →
  v = JStr r ∧ r ≠ "" ∧ ∃ date, fromIsoString r = Some date ∧ toIsoString date = r.
Proof.
  unfold doClassValidation_.
  destruct (truthy v) eqn:Hv; simpl; [|done].
  destruct v as [| |s]; try done.
  destruct (fromIsoString s) as [date|] eqn:Hp; [|done].
  destruct (String.eqb_spec (toIsoString date) s) as [He|Hne]; simpl; [|done].
  intros [= <-]. split; [done|]. split; [by apply truthy_JStr|]. eauto.
Qed.

Lemma doClassValidation_accepts s date :
  s ≠ "" → fromIsoString s = Some date → toIsoString date = s →
  doClassValidation_ (JStr s) = Some s.
Proof.
  intros Hs Hp Hser. unfold doClassValidation_.
  apply truthy_JStr in Hs. rewrite Hs, Hp. simpl.
  by rewrite Hser, String.eqb_refl.
Qed.

Lemma doClassValidation_None s :
  s ≠ "" →
  doClassValidation_ (JStr s) = None ↔
    fromIsoString s = None
    ∨ ∃ date, fromIsoString s = Some date ∧ toIsoString date ≠ s.
Proof.
  intros Hs. split.
  - intros Hnone. destruct (fromIsoString s) as [date|] eqn:Hp; [|by left].
    right. exists date. split; [done|]. intros Hser.
    by rewrite (doClassValidation_accepts s date) in Hnone.
  - intros Hwhy. destruct (doClassValidation_ (JStr s)) as [r|] eqn:Hr; [|done].
    apply doClassValidation_Some in Hr as ([= <-] & _ & date & Hp & Hser).
    destruct Hwhy as [Hnp|(date' & Hp' & Hne)]; congruence.
Qed.

Lemma FieldDate_value_valid s validator now :
  doClassValidation_ (JStr s) = Some s →
  getValue (FieldDate (JStr s) validator now) = Some s.
Proof.
  intros Hs. unfold FieldDate. rewrite Hs.
  apply doClassValidation_Some in Hs as (_ & Hne & _).
  apply truthy_JStr in Hne. by rewrite Hne.
Qed.

Lemma FieldDate_value_default v validator now :
  doClassValidation_ v = None →
  getValue (FieldDate v validator now) = Some (toIsoString now).
Proof. intros Hv. unfold FieldDate. by rewrite Hv. Qed.
End ValidatorFacts.

(** C1.  The validator answers null on a falsy input (null, undefined, the
    empty string); on any other input it answers null exactly when the input
    does not parse as a date or the parsed date, printed back in canonical
    form, differs from the input.  With the ISO calendar as date class,
    "2020-02-30" and "2020-2-1" are both rejected. *)
Theorem doClassValidation_contract :
  (∀ (G : GoogDate) (v : JsArg),
      truthy v = false → doClassValidation_ v = None)
  ∧ (∀ (G : GoogDate) (s : string),
      truthy (JStr s) = true →
      doClassValidation_ (JStr s) = None ↔
        fromIsoString s = None
        ∨ ∃ date, fromIsoString s = Some date ∧ toIsoString date ≠ s)
  ∧ IsoCalendar.validate (JStr "2020-02-30") = None
  ∧ IsoCalendar.validate (JStr "2020-2-1") = None.
Proof.
  split; [|split].
  - intros G v. apply doClassValidation_falsy.
  - intros G s Hs. apply doClassValidation_None. by apply truthy_JStr.
  - split; reflexivity.
Qed.

(** The contract of C1 at the basic-format date "20200201": truthy, parsed,
    printed back as "2020-02-01", hence rejected. *)
Lemma doClassValidation_contract_witness :
  truthy (JStr "20200201") = true
  ∧ (IsoCalendar.validate (JStr "20200201") = None ↔
       IsoCalendar.parse "20200201" = None
       ∨ ∃ date, IsoCalendar.parse "20200201" = Some date
                 ∧ IsoCalendar.serialize date ≠ "20200201")
  ∧ IsoCalendar.validate JUndefined = None.
Proof.
  split; [reflexivity|]. split.
  - apply (proj1 (proj2 doClassValidation_contract) IsoCalendar.calendar "20200201").
    reflexivity.
  - apply (proj1 doClassValidation_contract IsoCalendar.calendar JUndefined).
    reflexivity.
Defined.

(** C2.  For every string the validator either answers null, or its answer
    is a fixed point (validating the answer gives the answer again) and the
    answer parses to a date whose canonical form is the answer itself. *)
Theorem doClassValidation_idempotent_roundtrip (G : GoogDate) (s : string) :
  doClassValidation_ (JStr s) = None
  ∨ (doClassValidation_ (arg_of_result (doClassValidation_ (JStr s)))
       = doClassValidation_ (JStr s)
     ∧ ∃ r date, doClassValidation_ (JStr s) = Some r
                 ∧ fromIsoString r = Some date ∧ toIsoString date = r).
Proof.
  destruct (doClassValidation_ (JStr s)) as [r|] eqn:Hr; [right|by left].
  destruct (doClassValidation_Some _ _ Hr) as ([= <-] & Hne & date & Hp & Hser).
  simpl. split; [done|]. by exists s, date.
Qed.

(** C10.  A non-null answer of the validator is the input string itself. *)
Theorem doClassValidation_identity (G : GoogDate) (v : JsArg) (r : string) :
  doClassValidation_ v = Some r → v = JStr r.
Proof. intros Hr. by apply doClassValidation_Some in Hr as (-> & _). Qed.

Lemma doClassValidation_identity_witness :
  IsoCalendar.validate (JStr "2024-03-01") = Some "2024-03-01"
  ∧ JStr "2024-03-01" = JStr "2024-03-01".
Proof.
  split; [reflexivity|].
  apply (doClassValidation_identity IsoCalendar.calendar (JStr "2024-03-01")).
  reflexivity.
Defined.

(** Evaluating the calendar validator on sample inputs. *)
Example validate_canonical :
  IsoCalendar.validate (JStr "2024-03-01") = Some "2024-03-01".
Proof. reflexivity. Qed.

Example validate_leap_day :
  IsoCalendar.validate (JStr "2020-02-29") = Some "2020-02-29"
  ∧ IsoCalendar.validate (JStr "2021-02-29") = None
  ∧ IsoCalendar.validate (JStr "1900-02-29") = None
  ∧ IsoCalendar.validate (JStr "2000-02-29") = Some "2000-02-29".
Proof. repeat split; reflexivity. Qed.

Example validate_basic_format_rejected :
  IsoCalendar.parse "20200201" = Some (IsoCalendar.mkIsoDate 2020 2 1)
  ∧ IsoCalendar.serialize (IsoCalendar.mkIsoDate 2020 2 1) = "2020-02-01"
  ∧ IsoCalendar.validate (JStr "20200201") = None.
Proof. repeat split; reflexivity. Qed.

Example validate_idempotent_example :
  IsoCalendar.validate (arg_of_result (IsoCalendar.validate (JStr "2024-03-01")))
  = IsoCalendar.validate (JStr "2024-03-01").
Proof. reflexivity. Qed.

(** ** Construction *)

(** C3.  A field constructed from an initial value that the validator rejects
    (no argument, or an invalid date such as "2024-13-40") has as value the
    clock's date in canonical form; a field constructed from a string that the
    validator accepts has exactly that string as value. *)
Theorem FieldDate_initial_value :
  (∀ (G : GoogDate) (opt_value : JsArg) (opt_validator : option Validator)
     (now : Date),
      (doClassValidation_ opt_value = None →
       getValue (FieldDate opt_value opt_validator now) = Some (toIsoString now))
      ∧ (∀ s, doClassValidation_ opt_value = Some s →
              opt_value = JStr s
              ∧ getValue (FieldDate opt_value opt_validator now) = Some s))
  ∧ (∀ (opt_validator : option Validator) (now : IsoCalendar.IsoDate),
      getValue (FieldDate (G := IsoCalendar.calendar) JUndefined opt_validator now)
        = Some (IsoCalendar.serialize now)
      ∧ getValue (FieldDate (G := IsoCalendar.calendar) (JStr "2024-13-40")
                    opt_validator now)
        = Some (IsoCalendar.serialize now)
      ∧ getValue (FieldDate (G := IsoCalendar.calendar) (JStr "2024-03-01")
                    opt_validator now)
        = Some "2024-03-01").
Proof.
  split.
  - intros G v validator now. split.
    + apply FieldDate_value_default.
    + intros s Hs. destruct (doClassValidation_Some _ _ Hs) as (-> & _).
      split; [done|]. by apply FieldDate_value_valid.
  - intros validator now. repeat split; reflexivity.
Qed.

Lemma FieldDate_initial_value_witness :
  (IsoCalendar.validate JNull = None
   ∧ getValue (FieldDate (G := IsoCalendar.calendar) JNull None Sample.today) = Some "2026-11-01")
  ∧ (IsoCalendar.validate (JStr "1999-12-31") = Some "1999-12-31"
     ∧ getValue (FieldDate (G := IsoCalendar.calendar) (JStr "1999-12-31") None
                   Sample.today)
       = Some "1999-12-31").
Proof.
  pose proof (proj1 FieldDate_initial_value IsoCalendar.calendar) as H.
  split; (split; [reflexivity|]).
  - apply (proj1 (H JNull None Sample.today)). reflexivity.
  - apply (proj2 (H (JStr "1999-12-31") None Sample.today) "1999-12-31").
    reflexivity.
Defined.

(** C9.  [fromJson] reads one option, the value under the key "date", and
    uses it as the constructor's initial value; the other keys of the
    configuration object do not matter and the field gets no validator. *)
Theorem fromJson_reads_date_only (G : GoogDate) (options : gmap string JsArg)
    (now : Date) :
  fromJson options now = FieldDate (default JUndefined (options !! "date")) None now
  ∧ validator_ (fromJson options now) = None
  ∧ (∀ options' : gmap string JsArg,
       options' !! "date" = options !! "date" →
       fromJson options' now = fromJson options now)
  ∧ (∀ (key : string) (v : JsArg),
       key ≠ "date" →
       fromJson (<[key := v]> options) now = fromJson options now
       ∧ fromJson (delete key options) now = fromJson options now)
  ∧ (∀ s, options !! "date" = Some (JStr s) →
          doClassValidation_ (JStr s) = Some s →
          getValue (fromJson options now) = Some s).
Proof.
  unfold fromJson, get_option. split; [done|]. split; [done|]. split; [|split].
  - intros options' Heq. by rewrite Heq.
  - intros key v Hkey. by rewrite lookup_insert_ne, lookup_delete_ne.
  - intros s Hs Hv. rewrite Hs. exact (FieldDate_value_valid s None now Hv).
Qed.

Lemma fromJson_reads_date_only_witness :
  getValue (fromJson (G := IsoCalendar.calendar)
              {[ "date" := JStr "2024-03-01"; "colour" := JStr "#ff0000" ]}
              Sample.today)
  = Some "2024-03-01"
  ∧ fromJson (G := IsoCalendar.calendar)
      (<["name" := JStr "DAY"]> {[ "date" := JStr "2024-03-01" ]}) Sample.today
    = fromJson (G := IsoCalendar.calendar)
        {[ "date" := JStr "2024-03-01" ]} Sample.today.
Proof.
  split.
  - destruct (fromJson_reads_date_only IsoCalendar.calendar
                {[ "date" := JStr "2024-03-01"; "colour" := JStr "#ff0000" ]}
                Sample.today) as (_ & _ & _ & _ & Hvalue).
    apply Hvalue; reflexivity.
  - destruct (fromJson_reads_date_only IsoCalendar.calendar
                {[ "date" := JStr "2024-03-01" ]} Sample.today)
      as (_ & _ & _ & Hkeys & _).
    apply (Hkeys "name" (JStr "DAY")). discriminate.
Defined.

(** ** The overlay *)

Section OverlayFacts.
Context {G : GoogDate} {L : LocaleEnv}.

(** *** What each operation leaves alone *)

Lemma setValue_overlay f v σ : overlay_of (setValue f v σ) = overlay_of σ.
Proof.
  unfold setValue. destruct (fields σ !! f); [|done].
  destruct (_ ≫= _); [|done]. by case_decide.
Qed.

Lemma widgetDispose_frame σ :
  fields (widgetDispose_ σ) = fields σ
  ∧ owner_ (widgetDispose_ σ) = owner_ σ
  ∧ dispose_ (widgetDispose_ σ) = dispose_ σ
  ∧ DIV (widgetDispose_ σ) = DIV σ
  ∧ changeEventKey_ (widgetDispose_ σ) = changeEventKey_ σ
  ∧ nextKey (widgetDispose_ σ) = nextKey σ
  ∧ fired (widgetDispose_ σ) = fired σ
  ∧ DateTimeSymbols (widgetDispose_ σ) = DateTimeSymbols σ.
Proof.
  unfold widgetDispose_.
  destruct (changeEventKey_ σ) eqn:Hk; simpl; by rewrite ?Hk.
Qed.

Lemma widgetDispose_listeners σ :
  listeners (widgetDispose_ σ)
  = match changeEventKey_ σ with
    | Some key => delete key (listeners σ)
    | None => listeners σ
    end.
Proof. unfold widgetDispose_. by destruct (changeEventKey_ σ). Qed.

Lemma widgetDispose_group σ : group_ (widgetDispose_ σ) = false.
Proof. done. Qed.

Lemma widgetDispose_idempotent σ :
  widgetDispose_ (widgetDispose_ σ) = widgetDispose_ σ.
Proof.
  unfold widgetDispose_. destruct (changeEventKey_ σ) as [key|] eqn:Hk; simpl.
  - rewrite Hk. unfold Blockly_Events_setGroup, set_group_,
      goog_events_unlistenByKey, set_registry. simpl.
    by rewrite delete_delete_eq.
  - by rewrite Hk.
Qed.

Lemma WidgetDiv_hide_frame σ :
  fields (WidgetDiv_hide σ) = fields σ
  ∧ owner_ (WidgetDiv_hide σ) = None
  ∧ changeEventKey_ (WidgetDiv_hide σ) = changeEventKey_ σ
  ∧ nextKey (WidgetDiv_hide σ) = nextKey σ
  ∧ fired (WidgetDiv_hide σ) = fired σ
  ∧ DateTimeSymbols (WidgetDiv_hide σ) = DateTimeSymbols σ.
Proof.
  unfold WidgetDiv_hide. destruct (owner_ σ) eqn:Ho; [|done]. simpl.
  destruct (dispose_ σ) as [[]|]; simpl; [|done].
  destruct (changeEventKey_ σ) eqn:Hk; simpl; by rewrite ?Hk.
Qed.

Lemma WidgetDiv_hide_closed σ : WidgetDiv_hide (WidgetDiv_hide σ) = WidgetDiv_hide σ.
Proof.
  pose proof (WidgetDiv_hide_frame σ) as (_ & Ho & _).
  unfold WidgetDiv_hide at 1. by rewrite Ho.
Qed.

(** Closing under the invariant: nothing stays registered or rendered. *)
Lemma WidgetDiv_hide_inv σ :
  overlay_inv σ →
  listeners (WidgetDiv_hide σ) = ∅
  ∧ DIV (WidgetDiv_hide σ) = []
  ∧ overlay_inv (WidgetDiv_hide σ).
Proof.
  unfold overlay_inv, WidgetDiv_hide.
  destruct (owner_ σ) as [f|] eqn:Ho.
  - intros (key & Hk & Hl & Hd & _). simpl. rewrite Hd. simpl.
    rewrite Hk. simpl. by rewrite Hl, delete_singleton_eq.
  - intros [Hl Hd]. by rewrite Ho.
Qed.

Lemma WidgetDiv_hide_group σ f :
  overlay_inv σ → owner_ σ = Some f → group_ (WidgetDiv_hide σ) = false.
Proof.
  unfold overlay_inv, WidgetDiv_hide. intros Hinv Ho. rewrite Ho in *.
  destruct Hinv as (key & _ & _ & Hd & _). simpl. by rewrite Hd.
Qed.

Lemma WidgetDiv_hideIfOwner_not_owner f σ :
  owner_ σ ≠ Some f → WidgetDiv_hideIfOwner f σ = σ.
Proof. intros Ho. unfold WidgetDiv_hideIfOwner. by case_decide. Qed.

Lemma WidgetDiv_hideIfOwner_owner f σ :
  owner_ (WidgetDiv_hideIfOwner f σ) ≠ Some f.
Proof.
  unfold WidgetDiv_hideIfOwner. case_decide; [|done].
  by destruct (WidgetDiv_hide_frame σ) as (_ & -> & _).
Qed.

(** *** Opening *)

Lemma showEditor_Some f σ σ' :
  showEditor_ f σ = Some σ' →
  ∃ fld block,
    fields σ !! f = Some fld ∧ sourceBlock_ fld = Some block
    ∧ owner_ σ' = Some f
    ∧ dispose_ σ' = Some FieldDate_widgetDispose_
    ∧ changeEventKey_ σ' = Some (nextKey σ)
    ∧ nextKey σ' = S (nextKey σ)
    ∧ listeners σ' = <[nextKey σ := f]> (listeners (WidgetDiv_hide σ))
    ∧ DIV σ' = (DIV (WidgetDiv_hide σ)
                  ++ [mkPicker false false
                        (DateTime_fromIsoString (getValue fld))])%list
    ∧ fields σ' = fields σ
    ∧ fired σ' = fired σ
    ∧ DateTimeSymbols σ' = loadLanguage_ Msg_has i18n (DateTimeSymbols σ).
Proof.
  unfold showEditor_. intros Hshow.
  destruct (fields σ !! f) as [fld|] eqn:Hf; [|done]. simpl in Hshow.
  destruct (sourceBlock_ fld) as [block|] eqn:Hb; [|done]. simpl in Hshow.
  injection Hshow as <-. exists fld, block.
  destruct (WidgetDiv_hide_frame σ) as (Hfl & _ & _ & Hn & Hfi & Hsy).
  simpl. rewrite Hfl, Hn, Hfi, Hsy. by repeat split.
Qed.

Lemma showEditor_inv f σ σ' :
  overlay_inv σ → showEditor_ f σ = Some σ' →
  overlay_inv σ' ∧ listeners σ' = {[nextKey σ := f]}.
Proof.
  intros Hinv Hshow.
  apply showEditor_Some in Hshow
    as (fld & block & _ & _ & Ho & Hd & Hk & _ & Hl & Hdiv & _).
  destruct (WidgetDiv_hide_inv σ Hinv) as (Hl0 & Hdiv0 & _).
  rewrite Hl0, insert_empty in Hl. rewrite Hdiv0 in Hdiv.
  split; [|done]. unfold overlay_inv. rewrite Ho.
  exists (nextKey σ). by rewrite Hdiv.
Qed.

(** *** The invariant holds in every reachable state *)

Lemma overlay_inv_of σ σ' : overlay_of σ' = overlay_of σ → overlay_inv σ → overlay_inv σ'.
Proof.
  unfold overlay_of, overlay_inv. intros [= -> -> -> -> -> _]. done.
Qed.

Lemma set_fields_overlay m σ : overlay_of (set_fields m σ) = overlay_of σ.
Proof. done. Qed.

Lemma changeListener_inv f d σ : overlay_inv σ → overlay_inv (changeListener f d σ).
Proof.
  intros Hinv. unfold changeListener.
  eapply overlay_inv_of; [apply setValue_overlay|].
  by apply WidgetDiv_hide_inv.
Qed.

Lemma step_overlay_inv σ σ' : step σ σ' → overlay_inv σ → overlay_inv σ'.
Proof.
  intros Hstep Hinv. destruct Hstep as
    [σ f v validator now Hfresh | σ f b | σ f σ' Hshow | σ key d | σ | σ f
    | σ f v | σ b].
  - done.
  - done.
  - by eapply showEditor_inv.
  - unfold dispatchChange. destruct (listeners σ !! key); [|done].
    by apply changeListener_inv.
  - by apply WidgetDiv_hide_inv.
  - unfold dispose. eapply overlay_inv_of; [apply set_fields_overlay|].
    unfold WidgetDiv_hideIfOwner. case_decide; [|done].
    by apply WidgetDiv_hide_inv.
  - eapply overlay_inv_of; [apply setValue_overlay|done].
  - unfold overlay_inv in *. simpl. done.
Qed.

Lemma reachable_overlay_inv σ : reachable σ → overlay_inv σ.
Proof.
  induction 1 as [symbols | σ σ' _ IH Hstep].
  - by split.
  - by eapply step_overlay_inv.
Qed.
End OverlayFacts.

Section OverlayClaims.
Context {G : GoogDate} {L : LocaleEnv}.

Lemma setValue_value f v σ fld :
  fields σ !! f = Some fld →
  getValue <$> fields (setValue f v σ) !! f
  = Some (match doClassValidation_ v ≫= callValidator fld with
          | Some r => Some r
          | None => getValue fld
          end).
Proof.
  intros Hf. unfold setValue. rewrite Hf.
  destruct (_ ≫= _) as [r|]; [|by rewrite Hf].
  case_decide as Hsame; simpl.
  - rewrite Hf. simpl. by rewrite Hsame.
  - by rewrite lookup_insert_eq.
Qed.

Lemma setValue_fired f v σ :
  ∃ evs, fired (setValue f v σ) = (fired σ ++ evs)%list
         ∧ List.length evs ≤ 1
         ∧ Forall (λ ev, ce_field ev = f ∧ ce_overlayOwner ev = owner_ σ) evs.
Proof.
  unfold setValue.
  destruct (fields σ !! f) as [fld|];
    [destruct (_ ≫= _) as [r|]; [case_decide|]|];
    try (exists []; rewrite app_nil_r;
         split; [done|split; [simpl; lia|constructor]]).
  eexists [_]. simpl. split; [done|]. split; [lia|]. by repeat constructor.
Qed.

(** C4, as the code has it.  When the picker fires CHANGE with date [D] and
    the listener of field [f] is registered, the listener turns [D] into its
    canonical string (the empty string when there is no date), closes the
    overlay and then sets the value: afterwards no field owns the overlay and
    the at most one notification fired by the change saw the overlay closed.
    The value of [f] is then what the field's validator answers for the
    validated string, and the old value when the class validation or the
    validator answers null; for a field without validator it is the validated
    string, or the old value when validation answers null.  In a reachable
    state the close also leaves no registered listener and an empty
    container. *)
Theorem change_event_closes_then_sets (σ : State) (key : Key) (f : FieldId)
    (fld : Field) (D : option Date) :
  listeners σ !! key = Some f →
  fields σ !! f = Some fld →
  let date := match D with Some d => toIsoString d | None => "" end in
  let σ' := dispatchChange key D σ in
  σ' = setValue f (JStr date) (WidgetDiv_hide σ)
  ∧ (∀ f', ¬ overlay_open f' σ')
  ∧ getValue <$> fields σ' !! f
    = Some (match doClassValidation_ (JStr date) ≫= callValidator fld with
            | Some r => Some r
            | None => getValue fld
            end)
  ∧ (validator_ fld = None →
     getValue <$> fields σ' !! f
     = Some (match doClassValidation_ (JStr date) with
             | Some r => Some r
             | None => getValue fld
             end))
  ∧ (∃ evs, fired σ' = (fired σ ++ evs)%list
            ∧ List.length evs ≤ 1
            ∧ Forall (λ ev, ce_field ev = f ∧ ce_overlayOwner ev = None) evs)
  ∧ (reachable σ → listeners σ' = ∅ ∧ DIV σ' = []).
Proof.
  intros Hkey Hf date σ'.
  assert (Hσ' : σ' = setValue f (JStr date) (WidgetDiv_hide σ)).
  { subst σ'. unfold dispatchChange. by rewrite Hkey. }
  destruct (WidgetDiv_hide_frame σ) as (Hfl & Ho & _ & _ & Hfi & _).
  pose proof (setValue_overlay f (JStr date) (WidgetDiv_hide σ)) as Hov.
  rewrite <- Hσ' in Hov. unfold overlay_of in Hov.
  injection Hov as Ho' _ Hdiv _ Hl _.
  assert (Hvalue : getValue <$> fields σ' !! f
            = Some (match doClassValidation_ (JStr date) ≫= callValidator fld with
                    | Some r => Some r
                    | None => getValue fld
                    end)).
  { rewrite Hσ'. apply setValue_value. by rewrite Hfl. }
  split; [done|]. split; [|split; [done|split; [|split]]].
  - intros f'. unfold overlay_open. by rewrite Ho', Ho.
  - intros Hnone. rewrite Hvalue. unfold callValidator. rewrite Hnone.
    by destruct (doClassValidation_ (JStr date)).
  - destruct (setValue_fired f (JStr date) (WidgetDiv_hide σ))
      as (evs & Hevs & Hlen & Hall).
    exists evs. rewrite Hσ', Hevs, Hfi. split; [done|]. split; [done|].
    by rewrite Ho in Hall.
  - intros Hreach. apply reachable_overlay_inv in Hreach.
    destruct (WidgetDiv_hide_inv σ Hreach) as (Hl0 & Hdiv0 & _).
    by rewrite Hl, Hdiv.
Qed.

(** C5, as the code has it.  The widget-dispose path unsubscribes the
    stored key, doing so twice is the same as doing so once, and it clears
    the event group; it leaves [changeEventKey_] as it was.  So after the
    overlay of a reachable state is closed, the key is still stored but no
    listener is registered any more. *)
Theorem widgetDispose_unsubscribes (σ : State) :
  (∀ key, changeEventKey_ σ = Some key →
          listeners (widgetDispose_ σ) !! key = None)
  ∧ widgetDispose_ (widgetDispose_ σ) = widgetDispose_ σ
  ∧ group_ (widgetDispose_ σ) = false
  ∧ changeEventKey_ (widgetDispose_ σ) = changeEventKey_ σ
  ∧ (reachable σ → ∀ f, overlay_open f σ →
       listeners (WidgetDiv_hide σ) = ∅
       ∧ group_ (WidgetDiv_hide σ) = false
       ∧ token_held (WidgetDiv_hide σ)
       ∧ changeEventKey_ (WidgetDiv_hide σ) = changeEventKey_ σ).
Proof.
  split; [|split; [|split; [|split]]].
  - intros key Hk. rewrite widgetDispose_listeners, Hk. apply lookup_delete_eq.
  - apply widgetDispose_idempotent.
  - apply widgetDispose_group.
  - by destruct (widgetDispose_frame σ) as (_ & _ & _ & _ & -> & _).
  - intros Hreach f Hopen. apply reachable_overlay_inv in Hreach.
    destruct (WidgetDiv_hide_inv σ Hreach) as (Hl & _).
    destruct (WidgetDiv_hide_frame σ) as (_ & _ & Hk & _).
    split; [done|]. split; [by eapply WidgetDiv_hide_group|].
    split; [|done]. unfold token_held. rewrite Hk.
    unfold overlay_inv in Hreach. unfold overlay_open in Hopen.
    rewrite Hopen in Hreach. destruct Hreach as (key & -> & _). by eexists.
Qed.

(** C6.  Closing or disposing for a field that does not own the overlay
    changes nothing of the overlay (owner, callback, container, stored key,
    listeners, event group); both are total functions of the state, so
    nothing is raised.  Disposing a field twice is the same as disposing it
    once. *)
Theorem dispose_not_owner_noop (σ : State) (f : FieldId) :
  (owner_ σ ≠ Some f →
     WidgetDiv_hideIfOwner f σ = σ
     ∧ overlay_of (dispose f σ) = overlay_of σ)
  ∧ dispose f (dispose f σ) = dispose f σ.
Proof.
  split.
  - intros Ho. split; [by apply WidgetDiv_hideIfOwner_not_owner|].
    unfold dispose. by rewrite WidgetDiv_hideIfOwner_not_owner.
  - unfold dispose at 1.
    assert (Ho : owner_ (dispose f σ) ≠ Some f)
      by apply (WidgetDiv_hideIfOwner_owner f σ).
    rewrite (WidgetDiv_hideIfOwner_not_owner _ _ Ho).
    unfold dispose, set_fields. simpl. f_equal.
    apply map_eq. intros i. destruct (decide (f = i)) as [<-|Hne].
    + rewrite !lookup_alter_eq. by destruct (fields _ !! f).
    + by rewrite !lookup_alter_ne.
Qed.

(** C8, as the code has it.  In every reachable state at most one listener
    is registered, and a field's overlay is open exactly when that field has
    a registered listener.  Opening the editor twice in a row, for the same
    or for another field, leaves exactly one registered listener, the one of
    the second opening; the key of the first opening is no longer
    registered. *)
Theorem overlay_token_invariant (σ : State) :
  reachable σ →
  size (listeners σ) ≤ 1
  ∧ (∀ f, overlay_open f σ ↔ live_token f σ)
  ∧ (∀ f f' σ1 σ2,
       showEditor_ f σ = Some σ1 → showEditor_ f' σ1 = Some σ2 →
       size (listeners σ2) = 1
       ∧ overlay_open f' σ2
       ∧ (∃ key2, changeEventKey_ σ2 = Some key2
                  ∧ listeners σ2 = {[key2 := f']})
       ∧ (∀ key1, changeEventKey_ σ1 = Some key1 →
                  listeners σ2 !! key1 = None)).
Proof.
  intros Hreach. pose proof (reachable_overlay_inv σ Hreach) as Hinv.
  split; [|split].
  - unfold overlay_inv in Hinv. destruct (owner_ σ).
    + destruct Hinv as (key & _ & -> & _). by rewrite map_size_singleton.
    + destruct Hinv as [-> _]. rewrite map_size_empty. lia.
  - intros f. unfold overlay_open, live_token, overlay_inv in *.
    destruct (owner_ σ) as [g|].
    + destruct Hinv as (key & _ & -> & _). split.
      * intros [= ->]. exists key. apply lookup_singleton_eq.
      * intros (key' & Hk). by apply lookup_singleton_Some in Hk as [_ ->].
    + destruct Hinv as [-> _]. split; [done|].
      intros (key' & Hk). by rewrite lookup_empty in Hk.
  - intros f f' σ1 σ2 H1 H2.
    destruct (showEditor_inv f σ σ1 Hinv H1) as (Hinv1 & _).
    destruct (showEditor_inv f' σ1 σ2 Hinv1 H2) as (_ & Hl2).
    apply showEditor_Some in H1 as (_ & _ & _ & _ & _ & _ & Hk1 & Hn1 & _).
    apply showEditor_Some in H2 as (_ & _ & _ & _ & Ho2 & _ & Hk2 & _).
    rewrite Hl2. split; [by rewrite map_size_singleton|]. split; [done|].
    split; [by exists (nextKey σ1)|].
    intros key1. rewrite Hk1, Hn1. intros [= <-].
    apply lookup_singleton_ne. lia.
Qed.
End OverlayClaims.

(** *** The sample states *)

Lemma Sample_reachable_attached : reachable Sample.σ_attached.
Proof.
  eapply reachable_step; [|apply step_setSourceBlock].
  eapply reachable_step; [|apply step_setSourceBlock].
  eapply reachable_step; [|by apply step_new].
  eapply reachable_step; [|by apply step_new].
  apply reachable_initial.
Qed.

Lemma Sample_reachable_open : reachable Sample.σ_open.
Proof.
  eapply reachable_step; [apply Sample_reachable_attached|].
  by apply (step_showEditor _ 0).
Qed.

Lemma Sample_reachable_closed : reachable Sample.σ_closed.
Proof.
  eapply reachable_step; [apply Sample_reachable_open|]. apply step_hide.
Qed.

Example Sample_open_state :
  owner_ Sample.σ_open = Some 0
  ∧ changeEventKey_ Sample.σ_open = Some 0
  ∧ listeners Sample.σ_open = {[0 := 0]}
  ∧ DateTimeSymbols Sample.σ_open = "pt_BR".
Proof. repeat split; reflexivity. Qed.

Example Sample_other_state :
  showEditor_ 1 Sample.σ_open = Some Sample.σ_other
  ∧ owner_ Sample.σ_other = Some 1
  ∧ changeEventKey_ Sample.σ_other = Some 1
  ∧ listeners Sample.σ_other = {[1 := 1]}.
Proof. repeat split; reflexivity. Qed.

Lemma Sample_reachable_strict : reachable Sample.τ_attached.
Proof.
  eapply reachable_step; [|apply step_setSourceBlock].
  eapply reachable_step; [|apply step_setSourceBlock].
  eapply reachable_step; [|by apply step_new].
  eapply reachable_step; [|by apply step_new].
  apply reachable_initial.
Qed.

Lemma Sample_reachable_strict_open : reachable Sample.τ_open.
Proof.
  eapply reachable_step; [apply Sample_reachable_strict|].
  by apply (step_showEditor _ 0).
Qed.

Lemma Sample_reachable_strict_open1 : reachable Sample.τ_open1.
Proof.
  eapply reachable_step; [apply Sample_reachable_strict|].
  by apply (step_showEditor _ 1).
Qed.

(** The claim C4 as written fails on the code: the field of the open sample
    editor was built with a validator that aborts every change.  The picked
    date passes the class validation, the overlay is closed, and yet the
    value of the field is the old one, not the validated pick. *)
Lemma change_event_validator_aborts :
  listeners Sample.τ_open !! 0 = Some 0
  ∧ IsoCalendar.validate (JStr "2025-01-02") = Some "2025-01-02"
  ∧ getValue <$> fields (dispatchChange 0 Sample.picked Sample.τ_open) !! 0
    = Some (Some "2024-03-01")
  ∧ getValue <$> fields (dispatchChange 0 Sample.picked Sample.τ_open) !! 0
    ≠ Some (IsoCalendar.validate (JStr "2025-01-02")).
Proof.
  split; [reflexivity|]. split; [reflexivity|]. split; [reflexivity|].
  discriminate.
Qed.

(** With a validator that rewrites, the value is the validator's answer. *)
Example change_event_validator_rewrites :
  getValue <$> fields (dispatchChange 0 Sample.picked Sample.τ_open1) !! 1
  = Some (Some "2025-01-01").
Proof. reflexivity. Qed.

Lemma change_event_closes_then_sets_witness :
  listeners Sample.σ_open !! 0 = Some 0
  ∧ (∀ f', ¬ overlay_open f' (dispatchChange 0 Sample.picked Sample.σ_open))
  ∧ getValue <$> fields (dispatchChange 0 Sample.picked Sample.σ_open) !! 0
    = Some (Some "2025-01-02")
  ∧ listeners (dispatchChange 0 Sample.picked Sample.σ_open) = ∅
  ∧ getValue <$> fields (dispatchChange 0 Sample.picked Sample.τ_open1) !! 1
    = Some (Some "2025-01-01").
Proof.
  split; [reflexivity|].
  destruct (change_event_closes_then_sets Sample.σ_open 0 0
              (Field_setSourceBlock (mkBlock false)
                 (FieldDate (G := IsoCalendar.calendar) (JStr "2024-03-01") None
                    Sample.today))
              Sample.picked eq_refl eq_refl)
    as (_ & Hclosed & _ & Hvalue & _ & Hreach).
  split; [exact Hclosed|]. split; [exact (Hvalue eq_refl)|].
  split; [exact (proj1 (Hreach Sample_reachable_open))|].
  destruct (change_event_closes_then_sets Sample.τ_open1 0 1
              (Field_setSourceBlock (mkBlock false)
                 (FieldDate (G := IsoCalendar.calendar) (JStr "2024-03-15")
                    (Some Sample.first_of_month) Sample.today))
              Sample.picked eq_refl eq_refl)
    as (_ & _ & Hrewritten & _).
  exact Hrewritten.
Defined.

(** The claim C5 as written fails on the code: after the widget-dispose path
    has run on the open sample editor, and after the overlay has been closed,
    the key is still stored. *)
Lemma widgetDispose_keeps_key :
  overlay_open 0 Sample.σ_open
  ∧ changeEventKey_ (widgetDispose_ Sample.σ_open) ≠ None
  ∧ changeEventKey_ (WidgetDiv_hide Sample.σ_open) ≠ None
  ∧ token_held (WidgetDiv_hide Sample.σ_open).
Proof.
  split; [reflexivity|]. split; [discriminate|]. split; [discriminate|].
  by exists 0.
Qed.

Lemma widgetDispose_unsubscribes_witness :
  changeEventKey_ Sample.σ_open = Some 0
  ∧ listeners (widgetDispose_ Sample.σ_open) !! 0 = None
  ∧ overlay_open 0 Sample.σ_open
  ∧ listeners (WidgetDiv_hide Sample.σ_open) = ∅
  ∧ token_held (WidgetDiv_hide Sample.σ_open).
Proof.
  destruct (widgetDispose_unsubscribes Sample.σ_open)
    as (Hunsub & _ & _ & _ & Hclose).
  split; [reflexivity|]. split; [apply Hunsub; reflexivity|].
  split; [reflexivity|].
  destruct (Hclose Sample_reachable_open 0 eq_refl) as (Hnone & _ & Hheld & _).
  split; [exact Hnone|exact Hheld].
Defined.

Lemma dispose_not_owner_noop_witness :
  owner_ Sample.σ_open ≠ Some 1
  ∧ WidgetDiv_hideIfOwner 1 Sample.σ_open = Sample.σ_open
  ∧ overlay_of (dispose 1 Sample.σ_open) = overlay_of Sample.σ_open.
Proof.
  assert (Hno : owner_ Sample.σ_open ≠ Some 1) by discriminate.
  split; [exact Hno|].
  exact (proj1 (dispose_not_owner_noop Sample.σ_open 1) Hno).
Defined.

(** The claim C8 as written fails on the code: the sample state in which the
    editor was opened and closed is reachable, no overlay is open in it, and
    yet a token is held. *)
Lemma closed_overlay_holds_token :
  ¬ (overlay_open 0 Sample.σ_closed ↔ token_held Sample.σ_closed)
  ∧ (∀ f, ¬ overlay_open f Sample.σ_closed)
  ∧ changeEventKey_ Sample.σ_closed = Some 0.
Proof.
  split; [|split; [|reflexivity]].
  - intros [_ Hopen]. by specialize (Hopen (ex_intro _ 0 eq_refl)).
  - intros f. unfold overlay_open. discriminate.
Qed.

Lemma overlay_token_invariant_witness :
  size (listeners Sample.σ_open) ≤ 1
  ∧ (overlay_open 0 Sample.σ_open ↔ live_token 0 Sample.σ_open)
  ∧ size (listeners Sample.σ_other) = 1
  ∧ listeners Sample.σ_other !! 0 = None.
Proof.
  destruct (overlay_token_invariant Sample.σ_attached Sample_reachable_attached)
    as (_ & _ & Htwice).
  destruct (overlay_token_invariant Sample.σ_open Sample_reachable_open)
    as (Hsize & Hiff & _).
  split; [exact Hsize|]. split; [exact (Hiff 0)|].
  destruct (Htwice 0 1 Sample.σ_open Sample.σ_other eq_refl eq_refl)
    as (Hone & _ & _ & Hstale).
  split; [exact Hone|]. exact (Hstale 0 eq_refl).
Defined.

(** ** The locale scan *)

Lemma substring_all (s : string) : String.substring 0 (String.length s) s = s.
Proof. induction s as [|c s IH]; simpl; [done|by rewrite IH]. Qed.

Lemma substring_after_prefix (pre rest : string) :
  String.substring (String.length pre)
    (String.length (pre +:+ rest) - String.length pre) (pre +:+ rest) = rest.
Proof.
  induction pre as [|c pre IH]; simpl.
  - rewrite Nat.sub_0_r. apply substring_all.
  - apply IH.
Qed.

Lemma prefix_append (pre s : string) :
  String.prefix pre s = true ↔ ∃ rest, s = pre +:+ rest.
Proof.
  revert s. induction pre as [|c pre IH]; intros s.
  - split; [by exists s|by destruct s].
  - destruct s as [|c' s]; simpl; [split; [done|by intros [rest ?]]|].
    destruct (Ascii.ascii_dec c c') as [->|Hne].
    + rewrite IH. split; intros [rest Hrest]; exists rest.
      * by rewrite Hrest.
      * by injection Hrest.
    + split; [done|]. intros [rest Hrest]. by injection Hrest.
Qed.

(** The regular expression of [loadLanguage_], read as a predicate: the name
    is [DateTimeSymbols_] followed by a non-empty suffix without line
    terminators, and the suffix is the capture. *)
Lemma match_reg_Some (prop m1 : string) :
  match_reg prop = Some m1 ↔
    prop = "DateTimeSymbols_" +:+ m1 ∧ m1 ≠ ""
    ∧ forallb (λ c, negb (is_line_terminator c)) (list_ascii_of_string m1) = true.
Proof.
  unfold match_reg. split.
  - destruct (String.prefix _ prop) eqn:Hpre; [|done].
    apply prefix_append in Hpre as [rest ->].
    rewrite substring_after_prefix.
    destruct (String.eqb_spec rest "") as [->|Hne]; simpl; [done|].
    destruct (forallb _ _) eqn:Hall; [|done]. by intros [= <-].
  - intros (-> & Hne & Hall).
    destruct (String.prefix _ _) eqn:Hpre.
    + rewrite substring_after_prefix, Hall.
      by destruct (String.eqb_spec m1 "").
    + assert (String.prefix "DateTimeSymbols_" ("DateTimeSymbols_" +:+ m1) = true)
        by (apply prefix_append; by exists m1).
      congruence.
Qed.

Section LoadLanguageFacts.
Context {Symbols : Type} (inCatalog : string → bool).

Lemma loadLanguage_body_candidate (cur : Symbols) (entry : string * Symbols) :
  loadLanguage_body inCatalog cur entry
  = if candidate inCatalog entry then entry.2 else cur.
Proof.
  unfold loadLanguage_body, candidate. by destruct (match_reg entry.1).
Qed.

Lemma loadLanguage_no_candidate (props : list (string * Symbols)) (cur : Symbols) :
  Forall (λ entry, candidate inCatalog entry = false) props →
  loadLanguage_ inCatalog props cur = cur.
Proof.
  unfold loadLanguage_. induction 1 as [|entry props Hentry _ IH]; simpl; [done|].
  by rewrite loadLanguage_body_candidate, Hentry.
Qed.

Lemma loadLanguage_app (props1 props2 : list (string * Symbols)) (cur : Symbols) :
  loadLanguage_ inCatalog (props1 ++ props2) cur
  = loadLanguage_ inCatalog props2 (loadLanguage_ inCatalog props1 cur).
Proof. apply fold_left_app. Qed.

(** C7.  The scan visits every property of [goog.i18n] in enumeration
    order.  A property counts when its name is [DateTimeSymbols_] plus a
    non-empty suffix and the suffix, lower-cased and with its first
    underscore turned into a dot, is in the message catalog.  The active
    table becomes the table of the last property that counts; when none
    counts it is left as it was. *)
Theorem loadLanguage_last_match (i18n : list (string * Symbols)) (cur : Symbols) :
  (∀ entry : string * Symbols, candidate inCatalog entry = true ↔
     ∃ m1, entry.1 = "DateTimeSymbols_" +:+ m1 ∧ m1 ≠ ""
           ∧ forallb (λ c, negb (is_line_terminator c))
               (list_ascii_of_string m1) = true
           ∧ inCatalog (replace "_" "." (toLowerCase m1)) = true)
  ∧ (Forall (λ entry, candidate inCatalog entry = false) i18n →
     loadLanguage_ inCatalog i18n cur = cur)
  ∧ (∀ (before : list (string * Symbols)) entry after,
       i18n = before ++ entry :: after →
       candidate inCatalog entry = true →
       Forall (λ later, candidate inCatalog later = false) after →
       loadLanguage_ inCatalog i18n cur = entry.2).
Proof.
  split; [|split].
  - intros entry. unfold candidate. split.
    + destruct (match_reg entry.1) as [m1|] eqn:Hm; [|done].
      apply match_reg_Some in Hm as (Hname & Hne & Hall). by exists m1.
    + intros (m1 & Hname & Hne & Hall & Hcat).
      assert (match_reg entry.1 = Some m1) as ->
        by by apply match_reg_Some.
      done.
  - apply loadLanguage_no_candidate.
  - intros before entry after -> Hentry Hafter.
    rewrite loadLanguage_app.
    change (loadLanguage_ inCatalog (entry :: after)
              (loadLanguage_ inCatalog before cur))
      with (loadLanguage_ inCatalog after
              (loadLanguage_body inCatalog
                 (loadLanguage_ inCatalog before cur) entry)).
    rewrite (loadLanguage_no_candidate after _ Hafter).
    by rewrite loadLanguage_body_candidate, Hentry.
Qed.
End LoadLanguageFacts.

Lemma loadLanguage_last_match_witness :
  loadLanguage_ (@Msg_has Sample.locale) (@i18n Sample.locale) "en" = "pt_BR"
  ∧ loadLanguage_ (λ _, false) (@i18n Sample.locale) "en" = "en"
  ∧ candidate (@Msg_has Sample.locale) ("DateTimeSymbols_pt_BR", "pt_BR") = true.
Proof.
  split; [|split].
  - destruct (loadLanguage_last_match (@Msg_has Sample.locale) (@i18n Sample.locale) "en")
      as (_ & _ & Hlast).
    apply (Hlast [("DateTimeSymbols", "en"); ("DateTimeSymbols_en", "en")]
             ("DateTimeSymbols_pt_BR", "pt_BR")
             [("DateTimeSymbols_fr", "fr"); ("NumberFormatSymbols_en", "num_en")]).
    + reflexivity.
    + reflexivity.
    + repeat constructor.
  - destruct (loadLanguage_last_match (λ _, false)
                (@i18n Sample.locale) "en") as (_ & Hnone & _).
    apply Hnone. repeat constructor.
  - destruct (loadLanguage_last_match (@Msg_has Sample.locale) (@i18n Sample.locale) "en")
      as (Hcand & _ & _).
    apply Hcand. exists "pt_BR".
    split; [reflexivity|]. split; [discriminate|]. split; reflexivity.
Defined.

Example lang_of_examples :
  lang_of "pt_BR" = "pt.br"
  ∧ lang_of "en" = "en"
  ∧ lang_of "zh_Hans_CN" = "zh.hans_cn".
Proof. repeat split; reflexivity. Qed.

Example match_reg_examples :
  match_reg "DateTimeSymbols_pt_BR" = Some "pt_BR"
  ∧ match_reg "DateTimeSymbols_" = None
  ∧ match_reg "DateTimeSymbols" = None
  ∧ match_reg "NumberFormatSymbols_en" = None.
Proof. repeat split; reflexivity. Qed.

(** * Further properties of the code *)

(** ** Validator, constructor and JSON factory *)

(** X1.  A string accepted by the validator is never empty: line 100 rejects
    the empty string before the parser is asked. *)
Theorem doClassValidation_result_nonempty (G : GoogDate) (v : JsArg) (r : string) :
  doClassValidation_ v = Some r → r ≠ "" ∧ truthy (JStr r) = true.
Proof.
  intros Hr. apply doClassValidation_Some in Hr as (_ & Hne & _).
  split; [done|]. by apply truthy_JStr.
Qed.

Lemma doClassValidation_result_nonempty_witness :
  "2024-03-01" ≠ "" ∧ truthy (JStr "2024-03-01") = true.
Proof.
  apply (doClassValidation_result_nonempty IsoCalendar.calendar
           (JStr "2024-03-01") "2024-03-01").
  reflexivity.
Defined.

(** X2.  [fromJson] on a configuration without usable date - the key "date"
    is missing, or its value is null, undefined, empty or rejected by the
    validator - builds a field whose value is the clock's date. *)
Theorem fromJson_default_date (G : GoogDate) (options : gmap string JsArg)
    (now : Date) :
  (options !! "date" = None →
     getValue (fromJson options now) = Some (toIsoString now))
  ∧ (∀ v, options !! "date" = Some v → doClassValidation_ v = None →
          getValue (fromJson options now) = Some (toIsoString now)).
Proof.
  unfold fromJson, get_option. split.
  - intros ->. by apply FieldDate_value_default.
  - intros v -> Hv. by apply FieldDate_value_default.
Qed.

Lemma fromJson_default_date_witness :
  getValue (fromJson (G := IsoCalendar.calendar) ∅ Sample.today)
  = Some "2026-11-01"
  ∧ getValue (fromJson (G := IsoCalendar.calendar)
                {[ "date" := JStr "31/12/1999" ]} Sample.today)
    = Some "2026-11-01".
Proof.
  split.
  - apply (proj1 (fromJson_default_date IsoCalendar.calendar ∅ Sample.today)).
    reflexivity.
  - apply (proj2 (fromJson_default_date IsoCalendar.calendar
                    {[ "date" := JStr "31/12/1999" ]} Sample.today)
             (JStr "31/12/1999")); reflexivity.
Defined.

(** X3.  The constructor reads the clock only to replace a rejected initial
    value: for an accepted initial value the field is the same whatever the
    clock says, and for a rejected one the value is the clock's date and
    nothing of the argument. *)
Theorem FieldDate_clock_independent (G : GoogDate) (opt_value : JsArg)
    (opt_validator : option Validator) (now now' : Date) :
  (is_Some (doClassValidation_ opt_value) →
     FieldDate opt_value opt_validator now = FieldDate opt_value opt_validator now')
  ∧ (∀ other, doClassValidation_ opt_value = None →
              doClassValidation_ other = None →
              FieldDate opt_value opt_validator now
              = FieldDate other opt_validator now).
Proof.
  split.
  - intros [s Hs]. unfold FieldDate. rewrite Hs.
    apply doClassValidation_Some in Hs as (_ & Hne & _).
    apply truthy_JStr in Hne. by rewrite Hne.
  - intros other Hv Ho. unfold FieldDate. by rewrite Hv, Ho.
Qed.

Lemma FieldDate_clock_independent_witness :
  FieldDate (G := IsoCalendar.calendar) (JStr "2024-03-01") None Sample.today
  = FieldDate (G := IsoCalendar.calendar) (JStr "2024-03-01") None
      (IsoCalendar.mkIsoDate 1970 1 1)
  ∧ FieldDate (G := IsoCalendar.calendar) JUndefined None Sample.today
    = FieldDate (G := IsoCalendar.calendar) (JStr "2024-13-40") None Sample.today.
Proof.
  destruct (FieldDate_clock_independent IsoCalendar.calendar (JStr "2024-03-01")
              None Sample.today (IsoCalendar.mkIsoDate 1970 1 1)) as [Hsame _].
  destruct (FieldDate_clock_independent IsoCalendar.calendar JUndefined
              None Sample.today Sample.today) as [_ Hrej].
  split.
  - apply Hsame. by exists "2024-03-01".
  - apply (Hrej (JStr "2024-13-40")); reflexivity.
Defined.

(** ** The locale scan, continued *)

Lemma lower_ascii_underscore (c : ascii) :
  Ascii.eqb (lower_ascii c) "_" = Ascii.eqb c "_".
Proof.
  destruct c as [[] [] [] [] [] [] [] []]; reflexivity.
Qed.

Lemma toLowerCase_app (a b : string) :
  toLowerCase (a +:+ b) = toLowerCase a +:+ toLowerCase b.
Proof. induction a as [|c a IH]; simpl; [done|by rewrite IH]. Qed.

Lemma replace_absent (from to : ascii) (s : string) :
  forallb (λ c, negb (Ascii.eqb c from)) (list_ascii_of_string s) = true →
  replace from to s = s.
Proof.
  induction s as [|c s IH]; simpl; [done|].
  destruct (Ascii.eqb c from); simpl; [done|]. intros Hs. by rewrite IH.
Qed.

Lemma replace_first (from to : ascii) (a b : string) :
  forallb (λ c, negb (Ascii.eqb c from)) (list_ascii_of_string a) = true →
  replace from to (a +:+ String from b) = a +:+ String to b.
Proof.
  induction a as [|c a IH]; simpl.
  - by rewrite Ascii.eqb_refl.
  - destruct (Ascii.eqb c from); simpl; [done|]. intros Ha. by rewrite IH.
Qed.

Lemma toLowerCase_no_underscore (s : string) :
  forallb (λ c, negb (Ascii.eqb c "_")) (list_ascii_of_string (toLowerCase s))
  = forallb (λ c, negb (Ascii.eqb c "_")) (list_ascii_of_string s).
Proof.
  induction s as [|c s IH]; simpl; [done|].
  by rewrite lower_ascii_underscore, IH.
Qed.

(** X4.  The normalization of line 180 turns only the first underscore of
    the suffix into a dot: a suffix [a_b] whose part [a] has no underscore
    becomes [lower(a).lower(b)], with every underscore of [b] kept; a suffix
    without underscore is just lower-cased. *)
Theorem lang_of_first_underscore (a b : string) :
  forallb (λ c, negb (Ascii.eqb c "_")) (list_ascii_of_string a) = true →
  lang_of (a +:+ "_" +:+ b) = toLowerCase a +:+ "." +:+ toLowerCase b
  ∧ lang_of a = toLowerCase a.
Proof.
  intros Ha. unfold lang_of. split.
  - rewrite toLowerCase_app. simpl toLowerCase.
    change (lower_ascii "_") with "_"%char.
    apply replace_first. by rewrite toLowerCase_no_underscore.
  - apply replace_absent. by rewrite toLowerCase_no_underscore.
Qed.

Lemma lang_of_first_underscore_witness :
  lang_of ("zh" +:+ "_" +:+ "Hans_CN") = "zh.hans_cn" ∧ lang_of "zh" = "zh".
Proof.
  apply (lang_of_first_underscore "zh" "Hans_CN"). reflexivity.
Defined.

Section LoadLanguageMore.
Context {Symbols : Type} (inCatalog : string → bool).

Lemma loadLanguage_cons (entry : string * Symbols) (props : list (string * Symbols))
    (cur : Symbols) :
  loadLanguage_ inCatalog (entry :: props) cur
  = loadLanguage_ inCatalog props (loadLanguage_body inCatalog cur entry).
Proof. done. Qed.

(** Either the scan keeps whatever table is current, or it answers one
    table whatever was current. *)
Lemma loadLanguage_id_or_const (props : list (string * Symbols)) :
  (∀ cur, loadLanguage_ inCatalog props cur = cur)
  ∨ (∃ table, ∀ cur, loadLanguage_ inCatalog props cur = table).
Proof.
  induction props as [|entry props IH]; [by left|].
  destruct IH as [Hid|[table Hconst]].
  - destruct (candidate inCatalog entry) eqn:Hc.
    + right. exists entry.2. intros cur.
      by rewrite loadLanguage_cons, Hid, loadLanguage_body_candidate, Hc.
    + left. intros cur.
      by rewrite loadLanguage_cons, Hid, loadLanguage_body_candidate, Hc.
  - right. exists table. intros cur. by rewrite loadLanguage_cons, Hconst.
Qed.

(** X5.  Scanning twice is the same as scanning once: the table chosen by a
    scan is the table a further scan chooses. *)
Theorem loadLanguage_idempotent (i18n : list (string * Symbols)) (cur : Symbols) :
  loadLanguage_ inCatalog i18n (loadLanguage_ inCatalog i18n cur)
  = loadLanguage_ inCatalog i18n cur.
Proof.
  destruct (loadLanguage_id_or_const i18n) as [Hid|[table Hconst]].
  - by rewrite !Hid.
  - by rewrite !Hconst.
Qed.

(** X6.  The scan never invents a table: its answer is the table that was
    current, or the table of a property of [goog.i18n] that is a matching
    candidate. *)
Theorem loadLanguage_result_source (i18n : list (string * Symbols)) (cur : Symbols) :
  loadLanguage_ inCatalog i18n cur = cur
  ∨ ∃ entry, entry ∈ i18n ∧ candidate inCatalog entry = true
             ∧ loadLanguage_ inCatalog i18n cur = entry.2.
Proof.
  revert cur. induction i18n as [|entry props IH]; intros cur; [by left|].
  rewrite loadLanguage_cons, loadLanguage_body_candidate.
  destruct (IH (if candidate inCatalog entry then entry.2 else cur))
    as [Hsame|(later & Hin & Hc & Hres)].
  - rewrite Hsame. destruct (candidate inCatalog entry) eqn:Hc; [|by left].
    right. exists entry. split; [by left|done].
  - right. exists later. split; [by right|done].
Qed.

(** X7.  As soon as one property is a matching candidate, the table that was
    current before the scan has no influence on the result. *)
Theorem loadLanguage_overrides_current (i18n : list (string * Symbols))
    (cur cur' : Symbols) :
  Exists (λ entry, candidate inCatalog entry = true) i18n →
  loadLanguage_ inCatalog i18n cur = loadLanguage_ inCatalog i18n cur'.
Proof.
  intros Hex. revert cur cur'.
  induction Hex as [entry props Hc|entry props _ IH]; intros cur cur';
    rewrite !loadLanguage_cons.
  - by rewrite !loadLanguage_body_candidate, Hc.
  - apply IH.
Qed.
End LoadLanguageMore.

Lemma loadLanguage_overrides_current_witness :
  loadLanguage_ (@Msg_has Sample.locale) (@i18n Sample.locale) "en"
  = loadLanguage_ (@Msg_has Sample.locale) (@i18n Sample.locale) "fr".
Proof.
  apply (loadLanguage_overrides_current (@Msg_has Sample.locale)
           (@i18n Sample.locale) "en" "fr").
  apply Exists_cons_tl, Exists_cons_hd. reflexivity.
Defined.

Section LoadLanguageFilter.
Context {Symbols : Type} (inCatalog : string → bool).

(** X8.  Properties of [goog.i18n] that are not matching candidates play no
    part: dropping them from the namespace leaves the result of the scan
    unchanged. *)
Theorem loadLanguage_only_candidates (i18n : list (string * Symbols)) (cur : Symbols) :
  loadLanguage_ inCatalog (List.filter (candidate inCatalog) i18n) cur
  = loadLanguage_ inCatalog i18n cur.
Proof.
  revert cur. induction i18n as [|entry props IH]; intros cur; [done|].
  rewrite loadLanguage_cons, loadLanguage_body_candidate. simpl.
  destruct (candidate inCatalog entry) eqn:Hc; [|apply IH].
  by rewrite loadLanguage_cons, loadLanguage_body_candidate, Hc, IH.
Qed.
End LoadLanguageFilter.

(** ** The overlay, continued *)

Section OverlayMore.
Context {G : GoogDate} {L : LocaleEnv}.

Lemma setValue_rejected f v σ :
  doClassValidation_ v = None → setValue f v σ = σ.
Proof.
  intros Hv. unfold setValue. destruct (fields σ !! f); [|done]. by rewrite Hv.
Qed.

Lemma setValue_other f v σ g : g ≠ f → fields (setValue f v σ) !! g = fields σ !! g.
Proof.
  intros Hg. unfold setValue. destruct (fields σ !! f); [|done].
  destruct (_ ≫= _); [|done]. case_decide; [done|].
  simpl. by rewrite lookup_insert_ne.
Qed.

Lemma setValue_lookup f v σ g fld' :
  fields (setValue f v σ) !! g = Some fld' →
  is_Some (getValue fld') ∨ fields σ !! g = Some fld'.
Proof.
  unfold setValue. destruct (fields σ !! f) as [fld|] eqn:Hf; [|by right].
  destruct (_ ≫= _) as [r|]; [|by right].
  case_decide; [by right|]. simpl.
  destruct (decide (f = g)) as [->|Hne].
  - rewrite lookup_insert_eq. intros [= <-]. left. by eexists.
  - rewrite lookup_insert_ne by done. by right.
Qed.

Lemma changeListener_overlay f D σ :
  overlay_of (changeListener f D σ) = overlay_of (WidgetDiv_hide σ).
Proof. unfold changeListener. apply setValue_overlay. Qed.

Lemma dispatchChange_no_listener key D σ :
  listeners σ = ∅ → dispatchChange key D σ = σ.
Proof. intros Hl. unfold dispatchChange. by rewrite Hl, lookup_empty. Qed.

(** X9.  The widget-dispose callback touches two things only, the
    registration under the stored key and the event group: the fields, the
    overlay owner and callback, the container, the stored key, the key
    counter, the fired notifications, the active symbol table and the
    registration under any other key are as before. *)
Theorem widgetDispose_only_stored_key (σ : State) :
  fields (widgetDispose_ σ) = fields σ
  ∧ owner_ (widgetDispose_ σ) = owner_ σ
  ∧ dispose_ (widgetDispose_ σ) = dispose_ σ
  ∧ DIV (widgetDispose_ σ) = DIV σ
  ∧ changeEventKey_ (widgetDispose_ σ) = changeEventKey_ σ
  ∧ nextKey (widgetDispose_ σ) = nextKey σ
  ∧ fired (widgetDispose_ σ) = fired σ
  ∧ DateTimeSymbols (widgetDispose_ σ) = DateTimeSymbols σ
  ∧ (∀ key, changeEventKey_ σ ≠ Some key →
            listeners (widgetDispose_ σ) !! key = listeners σ !! key).
Proof.
  destruct (widgetDispose_frame σ) as (? & ? & ? & ? & ? & ? & ? & ?).
  repeat (split; [done|]).
  intros key Hkey. rewrite widgetDispose_listeners.
  destruct (changeEventKey_ σ) as [stored|]; [|done].
  apply lookup_delete_ne. congruence.
Qed.

(** X11.  A successful opening makes the field the owner of the overlay,
    stores a key under which the listener of that very field is registered,
    renders as last child of the container a picker that does not allow
    "none", shows no week numbers and is seeded with the field's value, and
    neither changes a field nor fires a notification. *)
Theorem showEditor_opens (f : FieldId) (σ σ' : State) :
  showEditor_ f σ = Some σ' →
  overlay_open f σ'
  ∧ (∃ key, changeEventKey_ σ' = Some key ∧ listeners σ' !! key = Some f)
  ∧ (∃ fld, fields σ !! f = Some fld
            ∧ last (DIV σ')
              = Some (mkPicker false false (DateTime_fromIsoString (getValue fld))))
  ∧ fields σ' = fields σ
  ∧ fired σ' = fired σ.
Proof.
  intros Hshow.
  apply showEditor_Some in Hshow
    as (fld & block & Hf & _ & Ho & _ & Hk & _ & Hl & Hdiv & Hfl & Hfi & _).
  split; [done|]. split; [|split; [|done]].
  - exists (nextKey σ). split; [done|]. rewrite Hl. apply lookup_insert_eq.
  - exists fld. split; [done|]. rewrite Hdiv. apply last_snoc.
Qed.

(** X12.  Open, then pick: when the editor of [f] has been opened and the
    picker fires CHANGE under the stored key with a date whose canonical
    string the class validation accepts, the value of [f] becomes what the
    field's validator answers for that string - the string itself for a
    field without validator - and stays as it was when the validator answers
    null; no overlay is open afterwards, and every other field is as it was
    before the editor was opened. *)
Theorem showEditor_then_pick (f : FieldId) (fld : Field) (σ σ1 : State)
    (key : Key) (d : Date) :
  showEditor_ f σ = Some σ1 →
  changeEventKey_ σ1 = Some key →
  fields σ !! f = Some fld →
  is_Some (doClassValidation_ (JStr (toIsoString d))) →
  getValue <$> fields (dispatchChange key (Some d) σ1) !! f
    = Some (match callValidator fld (toIsoString d) with
            | Some r => Some r
            | None => getValue fld
            end)
  ∧ (validator_ fld = None →
     getValue <$> fields (dispatchChange key (Some d) σ1) !! f
     = Some (Some (toIsoString d)))
  ∧ (∀ f', ¬ overlay_open f' (dispatchChange key (Some d) σ1))
  ∧ (∀ g, g ≠ f → fields (dispatchChange key (Some d) σ1) !! g = fields σ !! g).
Proof.
  intros Hshow Hkey Hfld [r Hr].
  apply showEditor_Some in Hshow
    as (fld0 & block & Hf & _ & _ & _ & Hk & _ & Hl & _ & Hfl & _).
  rewrite Hk in Hkey. injection Hkey as <-.
  assert (Hlive : listeners σ1 !! nextKey σ = Some f)
    by (rewrite Hl; apply lookup_insert_eq).
  unfold dispatchChange. rewrite Hlive. unfold changeListener.
  destruct (WidgetDiv_hide_frame σ1) as (Hfh & Hoh & _).
  destruct (doClassValidation_Some _ _ Hr) as ([= <-] & _).
  assert (Hvalue : getValue <$>
            fields (setValue f (JStr (toIsoString d)) (WidgetDiv_hide σ1)) !! f
            = Some (match callValidator fld (toIsoString d) with
                    | Some r => Some r
                    | None => getValue fld
                    end)).
  { rewrite (setValue_value f _ _ fld) by (by rewrite Hfh, Hfl). by rewrite Hr. }
  split; [done|]. split; [|split].
  - intros Hnone. rewrite Hvalue. unfold callValidator. by rewrite Hnone.
  - intros f'. unfold overlay_open.
    pose proof (setValue_overlay f (JStr (toIsoString d)) (WidgetDiv_hide σ1)) as Hov.
    unfold overlay_of in Hov. injection Hov as -> _. by rewrite Hoh.
  - intros g Hg. by rewrite setValue_other, Hfh, Hfl.
Qed.

(** X13.  The listener runs at most once per opening: in a reachable state,
    a second CHANGE under the same key changes nothing more, and a CHANGE
    that arrives after the overlay has been closed is ignored. *)
Theorem dispatchChange_once (σ : State) (key : Key) (D D' : option Date) :
  reachable σ →
  dispatchChange key D' (dispatchChange key D σ) = dispatchChange key D σ
  ∧ dispatchChange key D (WidgetDiv_hide σ) = WidgetDiv_hide σ.
Proof.
  intros Hreach. apply reachable_overlay_inv in Hreach.
  destruct (WidgetDiv_hide_inv σ Hreach) as (Hl & _).
  split; [|by apply dispatchChange_no_listener].
  destruct (listeners σ !! key) as [f|] eqn:Hkey.
  - assert (Hd : dispatchChange key D σ = changeListener f D σ)
      by (unfold dispatchChange; by rewrite Hkey).
    rewrite Hd. apply dispatchChange_no_listener.
    pose proof (changeListener_overlay f D σ) as Hov.
    unfold overlay_of in Hov. injection Hov as _ _ _ _ -> _. done.
  - assert (Hd : ∀ D0, dispatchChange key D0 σ = σ)
      by (intros D0; unfold dispatchChange; by rewrite Hkey).
    by rewrite !Hd.
Qed.

(** X14.  A CHANGE whose date string the validator rejects only closes the
    overlay; this is so in particular for a CHANGE without date, whose string
    is empty.  No field changes and nothing is fired. *)
Theorem dispatchChange_rejected (σ : State) (key : Key) (f : FieldId)
    (D : option Date) :
  listeners σ !! key = Some f →
  (doClassValidation_
     (JStr (match D with Some d => toIsoString d | None => "" end)) = None →
   dispatchChange key D σ = WidgetDiv_hide σ)
  ∧ dispatchChange key None σ = WidgetDiv_hide σ.
Proof.
  intros Hkey. unfold dispatchChange. rewrite Hkey. unfold changeListener.
  split.
  - intros Hrej. by apply setValue_rejected.
  - by apply setValue_rejected.
Qed.

(** X15.  The listener of a field leaves every other field as it is. *)
Theorem dispatchChange_other_fields (σ : State) (key : Key) (f g : FieldId)
    (D : option Date) :
  listeners σ !! key = Some f → g ≠ f →
  fields (dispatchChange key D σ) !! g = fields σ !! g.
Proof.
  intros Hkey Hg. unfold dispatchChange. rewrite Hkey. unfold changeListener.
  rewrite setValue_other by done.
  by destruct (WidgetDiv_hide_frame σ) as (-> & _).
Qed.

(** X16.  Disposing the field whose editor is open closes the editor: in a
    reachable state, afterwards nobody owns the overlay, no listener is
    registered, the container is empty, the event group is cleared, and a
    late CHANGE of the removed picker does nothing. *)
Theorem dispose_owner_closes (σ : State) (f : FieldId) :
  reachable σ → overlay_open f σ →
  owner_ (dispose f σ) = None
  ∧ listeners (dispose f σ) = ∅
  ∧ DIV (dispose f σ) = []
  ∧ group_ (dispose f σ) = false
  ∧ (∀ key D, dispatchChange key D (dispose f σ) = dispose f σ).
Proof.
  intros Hreach Hopen. apply reachable_overlay_inv in Hreach.
  destruct (WidgetDiv_hide_inv σ Hreach) as (Hl & Hdiv & _).
  destruct (WidgetDiv_hide_frame σ) as (_ & Ho & _).
  pose proof (WidgetDiv_hide_group σ f Hreach Hopen) as Hg.
  assert (Hd : WidgetDiv_hideIfOwner f σ = WidgetDiv_hide σ).
  { unfold WidgetDiv_hideIfOwner. by rewrite decide_True. }
  unfold dispose. rewrite Hd. simpl. repeat (split; [done|]).
  intros key D. by apply dispatchChange_no_listener.
Qed.

(** X17.  The symbol table chosen at one opening is the one every later
    opening chooses again: opening the editor twice in a row leaves
    [goog.i18n.DateTimeSymbols] as the first opening set it. *)
Theorem showEditor_locale_stable (f f' : FieldId) (σ σ1 σ2 : State) :
  showEditor_ f σ = Some σ1 → showEditor_ f' σ1 = Some σ2 →
  DateTimeSymbols σ1 = loadLanguage_ Msg_has i18n (DateTimeSymbols σ)
  ∧ DateTimeSymbols σ2 = DateTimeSymbols σ1.
Proof.
  intros H1 H2.
  apply showEditor_Some in H1 as (_ & _ & _ & _ & _ & _ & _ & _ & _ & _ & _ & _ & Hs1).
  apply showEditor_Some in H2 as (_ & _ & _ & _ & _ & _ & _ & _ & _ & _ & _ & _ & Hs2).
  split; [done|]. rewrite Hs2, Hs1.
  destruct (loadLanguage_id_or_const Msg_has i18n) as [Hid|[table Hconst]].
  - by rewrite !Hid.
  - by rewrite !Hconst.
Qed.

Lemma setValue_DateTimeSymbols f v σ :
  DateTimeSymbols (setValue f v σ) = DateTimeSymbols σ.
Proof.
  unfold setValue. destruct (fields σ !! f); [|done].
  destruct (_ ≫= _); [|done]. by case_decide.
Qed.

Lemma WidgetDiv_hide_DateTimeSymbols σ :
  DateTimeSymbols (WidgetDiv_hide σ) = DateTimeSymbols σ.
Proof. by destruct (WidgetDiv_hide_frame σ) as (_ & _ & _ & _ & _ & ->). Qed.

(** What the steps other than an opening do to the active table: nothing. *)
Lemma step_keeps_DateTimeSymbols (σ σ' : State) :
  step σ σ' →
  DateTimeSymbols σ' = DateTimeSymbols σ ∨ ∃ f, showEditor_ f σ = Some σ'.
Proof.
  intros Hstep. destruct Hstep as
    [σ f v validator now Hfresh | σ f b | σ f σ' Hshow | σ key D | σ | σ f
    | σ f v | σ b]; try by left.
  - right. by exists f.
  - left. unfold dispatchChange. destruct (listeners σ !! key) as [f|]; [|done].
    unfold changeListener.
    by rewrite setValue_DateTimeSymbols, WidgetDiv_hide_DateTimeSymbols.
  - left. apply WidgetDiv_hide_DateTimeSymbols.
  - left. unfold dispose, WidgetDiv_hideIfOwner. simpl. case_decide; [|done].
    apply WidgetDiv_hide_DateTimeSymbols.
  - left. apply setValue_DateTimeSymbols.
Qed.

(** X18.  Whatever the host does, the active symbol table only ever moves
    to the table of a matching candidate of [goog.i18n], and only an opening
    of the editor moves it: a step leaves [goog.i18n.DateTimeSymbols] as it
    was or sets it to such a table; a step that changes it is a successful
    [showEditor_]; and creating or attaching a field, a CHANGE, a hide, a
    dispose, a [setValue] and a [setGroup] each leave it as it was. *)
Theorem step_DateTimeSymbols (σ σ' : State) :
  step σ σ' →
  (DateTimeSymbols σ' = DateTimeSymbols σ
   ∨ ∃ entry, entry ∈ i18n ∧ candidate Msg_has entry = true
              ∧ DateTimeSymbols σ' = entry.2)
  ∧ (DateTimeSymbols σ' ≠ DateTimeSymbols σ →
     ∃ f, showEditor_ f σ = Some σ'
          ∧ DateTimeSymbols σ' = loadLanguage_ Msg_has i18n (DateTimeSymbols σ))
  ∧ (∀ m, DateTimeSymbols (set_fields m σ) = DateTimeSymbols σ)
  ∧ (∀ key D, DateTimeSymbols (dispatchChange key D σ) = DateTimeSymbols σ)
  ∧ DateTimeSymbols (WidgetDiv_hide σ) = DateTimeSymbols σ
  ∧ (∀ f, DateTimeSymbols (dispose f σ) = DateTimeSymbols σ)
  ∧ (∀ f v, DateTimeSymbols (setValue f v σ) = DateTimeSymbols σ)
  ∧ (∀ b, DateTimeSymbols (Blockly_Events_setGroup b σ) = DateTimeSymbols σ).
Proof.
  intros Hstep.
  assert (Hscan : ∀ (props : list (string * Symbols)) cur,
            loadLanguage_ Msg_has props cur = cur
            ∨ ∃ entry, entry ∈ props ∧ candidate Msg_has entry = true
                       ∧ loadLanguage_ Msg_has props cur = entry.2).
  { induction props as [|entry props IH]; intros cur; [by left|].
    rewrite loadLanguage_cons, loadLanguage_body_candidate.
    destruct (IH (if candidate Msg_has entry then entry.2 else cur))
      as [Hsame|(later & Hin & Hc & Hres)].
    - rewrite Hsame. destruct (candidate Msg_has entry) eqn:Hc; [|by left].
      right. exists entry. split; [by left|done].
    - right. exists later. split; [by right|done]. }
  split; [|split; [|split; [done|split; [|split; [|split; [|split; [|done]]]]]]].
  - destruct (step_keeps_DateTimeSymbols σ σ' Hstep) as [Hsame|[f Hshow]];
      [by left|].
    apply showEditor_Some in Hshow
      as (_ & _ & _ & _ & _ & _ & _ & _ & _ & _ & _ & _ & ->).
    apply Hscan.
  - intros Hchanged.
    destruct (step_keeps_DateTimeSymbols σ σ' Hstep) as [Hsame|[f Hshow]];
      [done|].
    exists f. split; [done|].
    by apply showEditor_Some in Hshow
      as (_ & _ & _ & _ & _ & _ & _ & _ & _ & _ & _ & _ & ->).
  - intros key D. unfold dispatchChange.
    destruct (listeners σ !! key) as [f|]; [|done]. unfold changeListener.
    by rewrite setValue_DateTimeSymbols, WidgetDiv_hide_DateTimeSymbols.
  - apply WidgetDiv_hide_DateTimeSymbols.
  - intros f. unfold dispose, WidgetDiv_hideIfOwner. simpl.
    case_decide; [|done]. apply WidgetDiv_hide_DateTimeSymbols.
  - intros f v. apply setValue_DateTimeSymbols.
Qed.

(** X19.  In every reachable state every field has a value: [getValue]
    never answers null, so [createWidget_] always hands a string to the date
    parser. *)
Theorem reachable_value_not_null (σ : State) :
  reachable σ →
  ∀ f fld, fields σ !! f = Some fld → is_Some (getValue fld).
Proof.
  induction 1 as [symbols | σ σ' _ IH Hstep]; intros g fld' Hg.
  - simpl in Hg. by rewrite lookup_empty in Hg.
  - destruct Hstep as
      [σ f v validator now Hfresh | σ f b | σ f σ' Hshow | σ key D | σ | σ f
      | σ f v | σ b].
    + simpl in Hg. destruct (decide (f = g)) as [->|Hne].
      * rewrite lookup_insert_eq in Hg. injection Hg as <-. by eexists.
      * rewrite lookup_insert_ne in Hg by done. by eapply IH.
    + simpl in Hg. destruct (decide (f = g)) as [->|Hne].
      * rewrite lookup_alter_eq in Hg.
        destruct (fields σ !! g) as [fld|] eqn:Hf; [|done].
        injection Hg as <-. by apply (IH g fld).
      * rewrite lookup_alter_ne in Hg by done. by eapply IH.
    + apply showEditor_Some in Hshow
        as (_ & _ & _ & _ & _ & _ & _ & _ & _ & _ & Hfl & _).
      rewrite Hfl in Hg. by eapply IH.
    + unfold dispatchChange in Hg. destruct (listeners σ !! key) as [f|];
        [|by eapply IH].
      unfold changeListener in Hg. apply setValue_lookup in Hg as [?|Hg]; [done|].
      destruct (WidgetDiv_hide_frame σ) as (Hfl & _). rewrite Hfl in Hg.
      by eapply IH.
    + destruct (WidgetDiv_hide_frame σ) as (Hfl & _). rewrite Hfl in Hg.
      by eapply IH.
    + unfold dispose in Hg. simpl in Hg.
      assert (Hfl : fields (WidgetDiv_hideIfOwner f σ) = fields σ).
      { unfold WidgetDiv_hideIfOwner. case_decide; [|done].
        by destruct (WidgetDiv_hide_frame σ) as (-> & _). }
      rewrite Hfl in Hg. destruct (decide (f = g)) as [->|Hne].
      * rewrite lookup_alter_eq in Hg.
        destruct (fields σ !! g) as [fld|] eqn:Hf; [|done].
        injection Hg as <-. by apply (IH g fld).
      * rewrite lookup_alter_ne in Hg by done. by eapply IH.
    + apply setValue_lookup in Hg as [?|Hg]; [done|]. by eapply IH.
    + by eapply IH.
Qed.

(** X20.  In every reachable state the container holds at most one picker,
    and it is empty exactly when no field owns the overlay: opening replaces
    the picker of a previous opening instead of adding to it. *)
Theorem reachable_one_picker (σ : State) :
  reachable σ →
  List.length (DIV σ) ≤ 1 ∧ (DIV σ = [] ↔ owner_ σ = None).
Proof.
  intros Hreach. apply reachable_overlay_inv in Hreach.
  unfold overlay_inv in Hreach. destruct (owner_ σ) as [f|].
  - destruct Hreach as (key & _ & _ & _ & Hlen). split; [lia|].
    split; [|done]. intros Hnil. by rewrite Hnil in Hlen.
  - destruct Hreach as [_ ->]. split; [simpl; lia|done].
Qed.
End OverlayMore.

(** *** Closed instances on the sample states *)

Lemma widgetDispose_only_stored_key_witness :
  changeEventKey_ Sample.σ_open ≠ Some 1
  ∧ listeners (widgetDispose_ Sample.σ_open) !! 1 = listeners Sample.σ_open !! 1.
Proof.
  assert (Hne : changeEventKey_ Sample.σ_open ≠ Some 1) by discriminate.
  split; [exact Hne|].
  destruct (widgetDispose_only_stored_key Sample.σ_open)
    as (_ & _ & _ & _ & _ & _ & _ & _ & Hother).
  exact (Hother 1 Hne).
Defined.

Lemma showEditor_opens_witness :
  overlay_open 0 Sample.σ_open
  ∧ fields Sample.σ_open = fields Sample.σ_attached
  ∧ fired Sample.σ_open = fired Sample.σ_attached.
Proof.
  destruct (showEditor_opens 0 Sample.σ_attached Sample.σ_open eq_refl)
    as (Hopen & _ & _ & Hfields & Hfired).
  split; [exact Hopen|]. split; [exact Hfields|exact Hfired].
Defined.

Lemma showEditor_then_pick_witness :
  getValue <$> fields (dispatchChange 0 Sample.picked Sample.σ_open) !! 0
  = Some (Some "2025-01-02")
  ∧ fields (dispatchChange 0 Sample.picked Sample.σ_open) !! 1
    = fields Sample.σ_attached !! 1
  ∧ getValue <$> fields (dispatchChange 0 Sample.picked Sample.τ_open) !! 0
    = Some (Some "2024-03-01")
  ∧ getValue <$> fields (dispatchChange 0 Sample.picked Sample.τ_open1) !! 1
    = Some (Some "2025-01-01").
Proof.
  destruct (@showEditor_then_pick IsoCalendar.calendar Sample.locale 0
              (Field_setSourceBlock (mkBlock false)
                 (FieldDate (G := IsoCalendar.calendar) (JStr "2024-03-01") None
                    Sample.today))
              Sample.σ_attached Sample.σ_open 0 (IsoCalendar.mkIsoDate 2025 1 2)
              eq_refl eq_refl eq_refl (ex_intro _ "2025-01-02" eq_refl))
    as (_ & Hvalue & _ & Hothers).
  split; [exact (Hvalue eq_refl)|]. split; [apply (Hothers 1); discriminate|].
  destruct (@showEditor_then_pick IsoCalendar.calendar Sample.locale 0
              (Field_setSourceBlock (mkBlock false)
                 (FieldDate (G := IsoCalendar.calendar) (JStr "2024-03-01")
                    (Some Sample.reject_all) Sample.today))
              Sample.τ_attached Sample.τ_open 0 (IsoCalendar.mkIsoDate 2025 1 2)
              eq_refl eq_refl eq_refl (ex_intro _ "2025-01-02" eq_refl))
    as (Haborted & _).
  split; [exact Haborted|].
  destruct (@showEditor_then_pick IsoCalendar.calendar Sample.locale 1
              (Field_setSourceBlock (mkBlock false)
                 (FieldDate (G := IsoCalendar.calendar) (JStr "2024-03-15")
                    (Some Sample.first_of_month) Sample.today))
              Sample.τ_attached Sample.τ_open1 0 (IsoCalendar.mkIsoDate 2025 1 2)
              eq_refl eq_refl eq_refl (ex_intro _ "2025-01-02" eq_refl))
    as (Hrewritten & _).
  exact Hrewritten.
Defined.

Lemma dispatchChange_once_witness :
  dispatchChange 0 None (dispatchChange 0 Sample.picked Sample.σ_open)
  = dispatchChange 0 Sample.picked Sample.σ_open
  ∧ dispatchChange 0 Sample.picked Sample.σ_closed = Sample.σ_closed.
Proof.
  exact (dispatchChange_once Sample.σ_open 0 Sample.picked None
           Sample_reachable_open).
Defined.

Lemma dispatchChange_rejected_witness :
  dispatchChange 0 None Sample.σ_open = Sample.σ_closed.
Proof.
  exact (proj2 (dispatchChange_rejected Sample.σ_open 0 0 None eq_refl)).
Defined.

Lemma dispatchChange_other_fields_witness :
  fields (dispatchChange 0 Sample.picked Sample.σ_open) !! 1
  = fields Sample.σ_open !! 1.
Proof.
  apply (dispatchChange_other_fields Sample.σ_open 0 0 1 Sample.picked).
  - reflexivity.
  - discriminate.
Defined.

Lemma dispose_owner_closes_witness :
  owner_ (dispose 0 Sample.σ_open) = None
  ∧ listeners (dispose 0 Sample.σ_open) = ∅
  ∧ DIV (dispose 0 Sample.σ_open) = [].
Proof.
  destruct (dispose_owner_closes Sample.σ_open 0 Sample_reachable_open eq_refl)
    as (Ho & Hl & Hdiv & _).
  split; [exact Ho|]. split; [exact Hl|exact Hdiv].
Defined.

Lemma showEditor_locale_stable_witness :
  DateTimeSymbols Sample.σ_open = "pt_BR"
  ∧ DateTimeSymbols Sample.σ_other = DateTimeSymbols Sample.σ_open.
Proof.
  destruct (showEditor_locale_stable 0 1 Sample.σ_attached Sample.σ_open
              Sample.σ_other eq_refl eq_refl) as (Hfirst & Hsecond).
  split; [exact Hfirst|exact Hsecond].
Defined.

Lemma step_DateTimeSymbols_witness :
  (DateTimeSymbols Sample.σ_open = DateTimeSymbols Sample.σ_attached
   ∨ ∃ entry, entry ∈ @i18n Sample.locale
              ∧ candidate (@Msg_has Sample.locale) entry = true
              ∧ DateTimeSymbols Sample.σ_open = entry.2)
  ∧ (∃ f, showEditor_ f Sample.σ_attached = Some Sample.σ_open
          ∧ DateTimeSymbols Sample.σ_open = "pt_BR")
  ∧ DateTimeSymbols (dispose 0 Sample.σ_open) = "pt_BR".
Proof.
  assert (Hstep : step Sample.σ_attached Sample.σ_open)
    by (by apply (step_showEditor _ 0)).
  destruct (step_DateTimeSymbols Sample.σ_attached Sample.σ_open Hstep)
    as (Hmoves & Honly & _).
  split; [exact Hmoves|]. split.
  - apply Honly. discriminate.
  - destruct (step_DateTimeSymbols Sample.σ_open Sample.σ_closed
                (step_hide Sample.σ_open)) as (_ & _ & _ & _ & _ & Hdispose & _).
    exact (Hdispose 0).
Defined.

Lemma reachable_value_not_null_witness :
  is_Some (getValue (Field_setSourceBlock (mkBlock true)
                       (FieldDate (G := IsoCalendar.calendar) JUndefined None
                          Sample.today))).
Proof.
  apply (reachable_value_not_null Sample.σ_open Sample_reachable_open 1).
  reflexivity.
Defined.

Lemma reachable_one_picker_witness :
  List.length (DIV Sample.σ_open) ≤ 1
  ∧ (DIV Sample.σ_open = [] ↔ owner_ Sample.σ_open = None).
Proof.
  exact (reachable_one_picker Sample.σ_open Sample_reachable_open).
Defined.
